(** * A notification client over Socket.IO: the example script, verified

    Shallow embedding of [docs/websocket/python_client_example.py].

    The script is glue code around a [socketio.Client]: module-level
    configuration read from the environment, seven registered event
    handlers, an unused [send_ping] helper and [main].  Everything the
    script itself does (what it prints, what it emits, which exceptions it
    catches, in which order) is translated from the source.  The client
    library is not part of the repository; its operations are modelled from
    the design-level description of the NotificationClient, and every such
    definition says so in its doc comment. *)

From Stdlib Require Import ZArith Lia Ascii String.
From stdpp Require Import base strings list gmap pretty.

Local Open Scope string_scope.
Local Open Scope list_scope.
Set Warnings "-register-all".

(** ** Python values *)

Module Py.

(** Payloads arrive as decoded JSON.  Floats are left out; a dict keeps the
    order of its keys, which is the order [str] prints them in. *)
Inductive value :=
| VNone
| VBool (b : bool)
| VInt (n : Z)
| VStr (s : string)
| VList (items : list value)
| VDict (items : list (string * value)).

(** [bool(v)], the test an [if v:] performs. *)
Definition truthy (v : value) : bool :=
  match v with
  | VNone => false
  | VBool b => b
  | VInt n => negb (n =? 0)%Z
  | VStr s => negb (String.eqb s EmptyString)
  | VList items => negb (Nat.eqb (length items) 0)
  | VDict items => negb (Nat.eqb (length items) 0)
  end.

(** [not s] on a string. *)
Definition is_empty (s : string) : bool := String.eqb s EmptyString.

(** A Python string is held as its UTF-8 bytes, a byte that does not
    decode standing for one character of its own (as [os.getenv] decodes
    the environment).  [byte_in lo hi c] tests the value of a byte. *)
Definition byte_in (lo hi : nat) (c : ascii) : bool :=
  Nat.leb lo (nat_of_ascii c) && Nat.leb (nat_of_ascii c) hi.

Definition continuation (c : ascii) : bool := byte_in 128 191 c.

(** The number of bytes of the character that starts with [c] and goes on
    in [rest]: 1 to 4 for a well-formed sequence (no overlong form, no
    surrogate, nothing above U+10FFFF), and 1 for a byte that starts
    none. *)
Definition char_width (c : ascii) (rest : string) : nat :=
  if byte_in 0 127 c then 1
  else
    match rest with
    | String b1 rest1 =>
        if byte_in 194 223 c && continuation b1 then 2
        else
          match rest1 with
          | String b2 rest2 =>
              if (byte_in 224 224 c && byte_in 160 191 b1
                  || byte_in 225 236 c && continuation b1
                  || byte_in 237 237 c && byte_in 128 159 b1
                  || byte_in 238 239 c && continuation b1)
                 && continuation b2
              then 3
              else
                match rest2 with
                | String b3 _ =>
                    if (byte_in 240 240 c && byte_in 144 191 b1
                        || byte_in 241 243 c && continuation b1
                        || byte_in 244 244 c && byte_in 128 143 b1)
                       && continuation b2 && continuation b3
                    then 4
                    else 1
                | EmptyString => 1
                end
          | EmptyString => 1
          end
    | EmptyString => 1
    end.

(** The characters of [s], not counting the next [skip] bytes, which belong
    to a character already counted. *)
Fixpoint count_chars (skip : nat) (s : string) : nat :=
  match s with
  | EmptyString => 0
  | String c rest =>
      match skip with
      | S skip' => count_chars skip' rest
      | O => S (count_chars (char_width c rest - 1) rest)
      end
  end.

(** [len(s)]: the number of characters. *)
Definition len (s : string) : nat := count_chars 0 s.

(** [s * n] on strings. *)
Fixpoint str_mul (s : string) (n : nat) : string :=
  match n with
  | O => EmptyString
  | S n' => s +:+ str_mul s n'
  end.

(** [sep.join(parts)]. *)
Fixpoint join (sep : string) (parts : list string) : string :=
  match parts with
  | [] => EmptyString
  | [p] => p
  | p :: rest => p +:+ sep +:+ join sep rest
  end.

Definition dquote : ascii := "034"%char.
Definition squote : ascii := "'"%char.
Definition backslash : ascii := "\"%char.

Fixpoint has_char (c : ascii) (s : string) : bool :=
  match s with
  | EmptyString => false
  | String c' s' => Ascii.eqb c c' || has_char c s'
  end.

Definition hex_digit (n : nat) : ascii :=
  match n with
  | 0 => "0" | 1 => "1" | 2 => "2" | 3 => "3" | 4 => "4" | 5 => "5"
  | 6 => "6" | 7 => "7" | 8 => "8" | 9 => "9" | 10 => "a" | 11 => "b"
  | 12 => "c" | 13 => "d" | 14 => "e" | _ => "f"
  end%char.

(** One character of [repr(s)], inside the quote character [q]. *)
Definition escape_char (q c : ascii) : string :=
  let n := nat_of_ascii c in
  if Ascii.eqb c backslash then String backslash (String backslash EmptyString)
  else if Ascii.eqb c q then String backslash (String c EmptyString)
  else if Nat.eqb n 9 then "\t"
  else if Nat.eqb n 10 then "\n"
  else if Nat.eqb n 13 then "\r"
  else if Nat.ltb n 32 || Nat.eqb n 127 then
    "\x" +:+ String (hex_digit (n / 16)) (String (hex_digit (n mod 16)) EmptyString)
  else String c EmptyString.

Fixpoint escape (q : ascii) (s : string) : string :=
  match s with
  | EmptyString => EmptyString
  | String c s' => escape_char q c +:+ escape q s'
  end.

(** [repr(s)] for a string of ASCII characters: single quotes, unless the
    string has a single quote and no double quote. *)
Definition repr_str (s : string) : string :=
  let q := if has_char squote s && negb (has_char dquote s) then dquote else squote in
  String q (escape q s) +:+ String q EmptyString.

(** [repr(v)]. *)
Fixpoint repr (v : value) : string :=
  match v with
  | VNone => "None"
  | VBool true => "True"
  | VBool false => "False"
  | VInt n => pretty n
  | VStr s => repr_str s
  | VList items => "[" +:+ join ", " (map repr items) +:+ "]"
  | VDict items =>
      "{" +:+ join ", " (map (fun kv => let '(k, x) := kv in repr_str k +:+ ": " +:+ repr x) items) +:+ "}"
  end.

(** [str(v)], which is what an f-string hole [{v}] prints. *)
Definition str (v : value) : string :=
  match v with
  | VStr s => s
  | _ => repr v
  end.

(** [str(x)] where [x] is a string or [None] (as [sio.sid] is). *)
Definition str_opt (o : option string) : string :=
  match o with
  | Some s => s
  | None => "None"
  end.

(** Key lookup in a dict. *)
Fixpoint assoc (k : string) (items : list (string * value)) : option value :=
  match items with
  | [] => None
  | (k', x) :: rest => if String.eqb k k' then Some x else assoc k rest
  end.

(** The exceptions the script can meet. *)
Inductive exn :=
| ConnectionError (msg : string)
| KeyboardInterrupt
| KeyError (key : string)
| AttributeError (msg : string)
| TypeError (msg : string)
| BadNamespaceError (msg : string).

Inductive result (A : Type) :=
| Ok (a : A)
| Raise (e : exn).
Arguments Ok {A} a.
Arguments Raise {A} e.

(** [os.getenv(name, default)]. *)
Definition getenv (environ : gmap string string) (name default : string) : string :=
  match environ !! name with
  | Some v => v
  | None => default
  end.

(** What the interpreter returns to the shell when the script ends: 0 when
    [main] returns, non-zero when an exception escapes it. *)
Definition exit_status {A} (r : result A) : Z :=
  match r with
  | Ok _ => 0
  | Raise KeyboardInterrupt => 130
  | Raise _ => 1
  end.

End Py.

(** ** The client library and the world around it *)

Module Sio.
Import Py.

(** The keyword arguments of [socketio.Client(...)]. *)
Record Config := mkConfig {
  reconnection : bool;
  reconnection_attempts : nat;
  reconnection_delay : nat;
  reconnection_delay_max : nat
}.

(** Modelled from the spec: the states of the client (section 4.1:
    Disconnected, Connecting, Connected, and the terminal AuthFailed that
    is reached only from Connecting); the library that keeps them is not
    in the repository. *)
Inductive conn_state := Disconnected | Connecting | Connected | AuthFailed.

(** How the server answers one handshake: it accepts and assigns a session
    identifier, rejects the credentials with a message, or the attempt
    fails for a transient reason. *)
Inductive attempt :=
| Accept (sid : string)
| Reject (msg : string)
| Transient (msg : string).

(** A message from the server: event name and payload. *)
Record inbound := mkInbound { ev_name : string; ev_data : value }.

(** What ends a blocking wait. *)
Inductive fate := ServerCloses | UserInterrupts.

(** What the client does on the wire and towards the script, in order;
    [Called f] records that the script's function [f] was entered by a
    direct call, as [Fired h] does for a handler run by the dispatcher. *)
Inductive action :=
| ConnectCall (url : string) (auth : gmap string string) (transports : list string)
| Handshake (n : nat)
| Backoff (delay : nat)
| Enter (c : conn_state)
| Fired (handler : string)
| Crashed (handler : string) (e : exn)
| Sent (event : string) (data : value)
| Closed
| Called (function : string).

(** The part of the world the script cannot change: the wall clock (the
    n-th reading of [datetime.now().isoformat()]), whether sending a given
    event fails, and how a wait ends. *)
Record World := mkWorld {
  clock : nat -> string;
  emit_fault : string -> option exn;
  wait_fate : fate
}.

(** The part that changes: the client object ([sio.connected] is
    [conn = Connected], [sio.sid]), the console, the actions so far, the
    number of clock readings, and what the server will answer and send. *)
Record State := mkState {
  conn : conn_state;
  sid : option string;
  stdout : list string;
  trace : list action;
  tick : nat;
  handshakes : list attempt;
  inbox : list inbound
}.

Definition connected (s : State) : bool :=
  match conn s with Connected => true | _ => false end.

(** What the script can read back from the client object. *)
Definition memory (s : State) : conn_state * option string := (conn s, sid s).

Definition init (hs : list attempt) (evs : list inbound) : State :=
  mkState Disconnected None [] [] 0 hs evs.

Definition add_out (line : string) (s : State) : State :=
  mkState (conn s) (sid s) (stdout s ++ [line]) (trace s) (tick s) (handshakes s) (inbox s).

Definition add_trace (a : action) (s : State) : State :=
  mkState (conn s) (sid s) (stdout s) (trace s ++ [a]) (tick s) (handshakes s) (inbox s).

Definition move (c : conn_state) (id : option string) (s : State) : State :=
  mkState c id (stdout s) (trace s ++ [Enter c]) (tick s) (handshakes s) (inbox s).

(** *** Statements: state passing with exceptions

    A raised exception keeps the state reached so far, as in Python. *)
Definition M (A : Type) : Type := State -> result A * State.

Definition ret {A} (a : A) : M A := fun s => (Ok a, s).

Definition raise {A} (e : exn) : M A := fun s => (Raise e, s).

Definition bind {A B} (m : M A) (k : A -> M B) : M B := fun s =>
  match m s with
  | (Ok a, s') => k a s'
  | (Raise e, s') => (Raise e, s')
  end.

Declare Scope py_scope.
Delimit Scope py_scope with py.
Notation "x <- m ; k" := (bind m (fun x => k))
  (at level 100, m at next level, right associativity) : py_scope.
Notation "m ;; k" := (bind m (fun _ => k))
  (at level 100, right associativity) : py_scope.
Local Open Scope py_scope.

(** [try: body except ...: handler]; [handler e = None] when no clause
    matches [e]. *)
Definition try_except {A} (body : M A) (handler : exn -> option (M A)) : M A := fun s =>
  match body s with
  | (Ok a, s') => (Ok a, s')
  | (Raise e, s') =>
      match handler e with
      | Some h => h s'
      | None => (Raise e, s')
      end
  end.

(** [try: body finally: fin]; an exception raised by [fin] replaces the
    outcome of [body]. *)
Definition try_finally {A} (body : M A) (fin : M unit) : M A := fun s =>
  let '(r, s') := body s in
  match fin s' with
  | (Ok _, s'') => (r, s'')
  | (Raise e, s'') => (Raise e, s'')
  end.

Definition print (line : string) : M unit := fun s => (Ok tt, add_out line s).

Definition log (a : action) : M unit := fun s => (Ok tt, add_trace a s).

Definition enter (c : conn_state) (id : option string) : M unit := fun s =>
  (Ok tt, move c id s).

Definition get_connected : M bool := fun s => (Ok (connected s), s).

Definition get_sid : M (option string) := fun s => (Ok (sid s), s).

Section Library.

Variable cfg : Config.
Variable w : World.

(** [datetime.now().isoformat()]. *)
Definition now : M string := fun s =>
  (Ok (clock w (tick s)),
   mkState (conn s) (sid s) (stdout s) (trace s) (S (tick s)) (handshakes s) (inbox s)).

(** Modelled from the spec: [sio.emit] of the client library, which is not
    in the repository.  Section 4.1: subscribe, unsubscribe and ping send a
    control message, await no acknowledgment, and are safe to call only
    while connected.  Sending can fail ([emit_fault]). *)
Definition sio_emit (event : string) (data : value) : M unit := fun s =>
  if connected s then
    match emit_fault w event with
    | Some e => (Raise e, s)
    | None => (Ok tt, add_trace (Sent event data) s)
    end
  else (Raise (BadNamespaceError "/ is not a connected namespace."), s).

(** The handlers registered by [@sio.event] and [@sio.on(name)]. *)
Variable handlers : string -> option (value -> M unit).

(** Modelled from the spec: dispatch of one event to its registered handler
    (section 5: callbacks run one after the other on a single dispatch
    context).  The handler does not run on the caller's thread of control:
    what it raises is recorded and does not reach [main]. *)
Definition fire (name : string) (data : value) : M unit := fun s =>
  match handlers name with
  | None => (Ok tt, s)
  | Some h =>
      match h data (add_trace (Fired name) s) with
      | (Ok _, s') => (Ok tt, s')
      | (Raise e, s') => (Ok tt, add_trace (Crashed name e) s')
      end
  end.

(** Modelled from the spec: the delay before retry number [k] (section
    4.1: increasing delay, bounded exponential backoff, capped). *)
Definition backoff_delay (k : nat) : nat :=
  Nat.min (reconnection_delay cfg * 2 ^ k) (reconnection_delay_max cfg).

(** Modelled from the spec: how many retries the transport may make after
    the first handshake (section 4.1: a bounded attempt count), read from
    the configuration. *)
Definition retry_budget : nat :=
  if reconnection cfg then reconnection_attempts cfg else 0.

(** The server's next answer; a server that has stopped answering is a
    transient failure. *)
Definition next_attempt : M attempt := fun s =>
  match handshakes s with
  | [] => (Ok (Transient "server unreachable"), s)
  | a :: rest =>
      (Ok a, mkState (conn s) (sid s) (stdout s) (trace s) (tick s) rest (inbox s))
  end.

(** Modelled from the spec: the handshake with its retry policy (section
    4.1, state machine and failure semantics).  Acceptance enters
    [Connected] and fires the connected callback.  Rejection of the
    credentials enters the terminal [AuthFailed] state and fires the
    authFailed callback with a message; the connection stays closed and
    nothing is retried.  A transient failure is reported to the
    [connect_error] handler and retried after a delay while the budget
    lasts; when it is used up [ConnectionError] is raised. *)
Fixpoint handshake (budget k : nat) : M unit :=
  log (Handshake k);;
  a <- next_attempt;
  match a with
  | Accept id => enter Connected (Some id);; fire "connect" VNone
  | Reject msg => enter AuthFailed None;; fire "auth:error" (VDict [("message", VStr msg)])
  | Transient msg =>
      fire "connect_error" (VStr msg);;
      match budget with
      | O => enter Disconnected None;; raise (ConnectionError msg)
      | S budget' => log (Backoff (backoff_delay k));; handshake budget' (S k)
      end
  end.

(** Modelled from the spec: [sio.connect(url, auth=..., transports=...)]. *)
Definition sio_connect (url : string) (auth : gmap string string)
    (transports : list string) : M unit :=
  log (ConnectCall url auth transports);;
  enter Connecting None;;
  handshake retry_budget 0.

(** Modelled from the spec: inbound events are handed to their handlers
    once each, in arrival order (section 4.1, onNotification). *)
Fixpoint deliver (evs : list inbound) : M unit :=
  match evs with
  | [] => ret tt
  | ev :: rest => fire (ev_name ev) (ev_data ev);; deliver rest
  end.

(** Modelled from the spec: [sio.wait()] (section 5): suspends the caller
    until disconnection or external interruption; meanwhile the inbound
    events are dispatched in arrival order. *)
Definition sio_wait : M unit := fun s =>
  if connected s then
    (deliver (inbox s);;
     match wait_fate w with
     | ServerCloses => enter Disconnected None;; fire "disconnect" VNone
     | UserInterrupts => raise KeyboardInterrupt
     end)
      (mkState (conn s) (sid s) (stdout s) (trace s) (tick s) (handshakes s) [])
  else (Ok tt, s).

(** Modelled from the spec: [sio.disconnect()] (section 4.1): closes the
    connection; a no-op when already disconnected. *)
Definition sio_disconnect : M unit := fun s =>
  if connected s then
    (log Closed;; enter Disconnected None;; fire "disconnect" VNone) s
  else (Ok tt, s).

End Library.

End Sio.

(** ** The script *)

Module Script.
Import Py Sio.
Local Open Scope py_scope.

(** [data.get(key, default)]; only a dict has the method. *)
Definition dict_get (data : value) (key : string) (d : value) : M value :=
  match data with
  | VDict items => ret (default d (assoc key items))
  | _ => raise (AttributeError "object has no attribute 'get'")
  end.

(** [data[key]]. *)
Definition getitem (data : value) (key : string) : M value :=
  match data with
  | VDict items =>
      match assoc key items with
      | Some x => ret x
      | None => raise (KeyError key)
      end
  | _ => raise (TypeError "object is not subscriptable")
  end.

Definition nl : string := String "010"%char EmptyString.

(** Lines 30-35: the client object. *)
Definition sio : Config := mkConfig true 5 1 5.

Section Program.

Variable environ : gmap string string.
Variable w : World.

(** Lines 25-27. *)
Definition SOCKET_URL : string := getenv environ "SOCKET_URL" "http://localhost:3001".
Definition API_KEY : string := getenv environ "WEBSOCKET_API_KEY" EmptyString.
Definition USER_EMAIL : string := getenv environ "USER_EMAIL" "python-client@example.com".

(** A line that starts with the bracketed current time. *)
Definition stamped (text : string) : M unit :=
  t <- now w;
  print ("[" +:+ t +:+ "] " +:+ text).

(** Lines 38-45. *)
Definition connect : M unit :=
  t <- now w;
  id <- get_sid;
  print ("[" +:+ t +:+ "] Connected to server with SID: " +:+ str_opt id);;
  sio_emit w "subscribe" (VStr "python-clients");;
  stamped "Subscribed to room: python-clients".

(** Lines 48-51. *)
Definition disconnect : M unit :=
  stamped "Disconnected from server".

(** Lines 54-57. *)
Definition connect_error (data : value) : M unit :=
  stamped ("Connection failed: " +:+ str data).

(** Lines 60-64. *)
Definition on_auth_error (data : value) : M unit :=
  t <- now w;
  m <- dict_get data "message" (VStr "Unknown error");
  print ("[" +:+ t +:+ "] Authentication failed: " +:+ str m);;
  print "Please check your WEBSOCKET_API_KEY environment variable.".

(** Lines 67-88. *)
Definition on_notification (data : value) : M unit :=
  t <- now w;
  print (nl +:+ "[" +:+ t +:+ "] === NOTIFICATION RECEIVED ===");;
  ty <- dict_get data "type" (VStr "unknown");
  print ("  Type: " +:+ str ty);;
  title <- dict_get data "title" VNone;
  (if truthy title
   then x <- getitem data "title"; print ("  Title: " +:+ str x)
   else ret tt);;
  m <- dict_get data "message" (VStr EmptyString);
  print ("  Message: " +:+ str m);;
  extra <- dict_get data "data" VNone;
  (if truthy extra
   then x <- getitem data "data"; print ("  Data: " +:+ str x)
   else ret tt);;
  ts <- dict_get data "timestamp" (VStr "N/A");
  print ("  Timestamp: " +:+ str ts);;
  print (str_mul "=" 50).

(** Lines 91-94. *)
Definition on_pong (data : value) : M unit :=
  stamped ("Pong received: " +:+ str data).

(** Lines 97-100. *)
Definition on_server_shutdown (data : value) : M unit :=
  stamped ("Server is shutting down: " +:+ str data).

(** Lines 103-106; the first statement records the call. *)
Definition send_ping : M unit :=
  log (Called "send_ping");;
  sio_emit w "ping" VNone;;
  stamped "Ping sent".

(** The registrations made by the decorators: [@sio.event] registers under
    the function's name, [@sio.on(name)] under [name]. *)
Definition handlers (name : string) : option (value -> M unit) :=
  if String.eqb name "connect" then Some (fun _ => connect)
  else if String.eqb name "disconnect" then Some (fun _ => disconnect)
  else if String.eqb name "connect_error" then Some connect_error
  else if String.eqb name "auth:error" then Some on_auth_error
  else if String.eqb name "notification" then Some on_notification
  else if String.eqb name "pong" then Some on_pong
  else if String.eqb name "server:shutdown" then Some on_server_shutdown
  else None.

(** Line 114: how the key is shown. *)
Definition masked (key : string) : string :=
  if negb (is_empty key) then str_mul "*" (len key) else "(not set)".

(** Lines 111-117. *)
Definition banner : M unit :=
  print "RAGFlow Socket.IO Python Client";;
  print (str_mul "=" 40);;
  print ("Server URL: " +:+ SOCKET_URL);;
  print ("API Key: " +:+ masked API_KEY);;
  print ("User Email: " +:+ USER_EMAIL);;
  print (str_mul "=" 40);;
  print EmptyString.

(** Lines 119-122. *)
Definition warn_no_key : M unit :=
  if is_empty API_KEY then
    print "WARNING: No API key set. Connection may be rejected if server requires authentication.";;
    print "Set WEBSOCKET_API_KEY environment variable to authenticate.";;
    print EmptyString
  else ret tt.

(** Lines 126-128. *)
Definition auth_payload : gmap string string :=
  let payload := {["email" := USER_EMAIL]} in
  if negb (is_empty API_KEY) then <["apiKey" := API_KEY]> payload else payload.

(** Lines 125-142: the body of the [try]. *)
Definition session : M unit :=
  stamped ("Connecting to " +:+ SOCKET_URL +:+ "...");;
  sio_connect sio handlers SOCKET_URL auth_payload ["websocket"; "polling"];;
  stamped "Waiting for notifications (Ctrl+C to exit)...";;
  print EmptyString;;
  sio_wait w handlers.

(** Lines 144-147: the [except] clauses. *)
Definition rescue (e : exn) : option (M unit) :=
  match e with
  | ConnectionError msg => Some (stamped ("Failed to connect: " +:+ msg))
  | KeyboardInterrupt =>
      Some (t <- now w; print (nl +:+ "[" +:+ t +:+ "] Interrupted by user"))
  | _ => None
  end.

(** Lines 148-153: the [finally] block. *)
Definition shutdown : M unit :=
  c <- get_connected;
  if c then
    sio_emit w "unsubscribe" (VStr "python-clients");;
    sio_disconnect handlers;;
    stamped "Disconnected gracefully"
  else ret tt.

(** Lines 109-153; the first statement records the call. *)
Definition main : M unit :=
  log (Called "main");;
  banner;;
  warn_no_key;;
  try_finally (try_except session rescue) shutdown.

(** Lines 156-157: one run of the script against a server that answers the
    handshakes with [hs] and then sends [evs]. *)
Definition run (hs : list attempt) (evs : list inbound) : result unit * State :=
  main (init hs evs).

End Program.

End Script.

(** ** Reading a run *)

Module Obs.
Import Py Sio Script.
Local Open Scope py_scope.

(** A statement whose actions all satisfy [Q]. *)
Definition emits {A} (Q : action -> Prop) (m : M A) : Prop :=
  forall s, exists tr, trace (snd (m s)) = trace s ++ tr /\ Forall Q tr.

(** A statement that leaves the client object and the server's pending
    answers alone. *)
Definition steady {A} (m : M A) : Prop :=
  forall s, memory (snd (m s)) = memory s /\ handshakes (snd (m s)) = handshakes s.

(** A statement that always completes. *)
Definition total {A} (m : M A) : Prop :=
  forall s, exists a, fst (m s) = Ok a.

(** What a handler may add to the trace: at most the subscribe message of
    the [connect] handler. *)
Definition chatter (a : action) : Prop :=
  match a with
  | Fired _ | Crashed _ _ => True
  | Sent ev _ => ev = "subscribe"
  | _ => False
  end.

Definition is_handshake (a : action) : bool :=
  match a with Handshake _ => true | _ => false end.

Definition is_auth_failed (a : action) : bool :=
  match a with Fired h => String.eqb h "auth:error" | _ => false end.

Definition is_ping (a : action) : bool :=
  match a with
  | Sent ev _ => String.eqb ev "ping"
  | Called f => String.eqb f "send_ping"
  | _ => false
  end.

Definition is_close (a : action) : bool :=
  match a with Closed => true | _ => false end.

Definition is_connected_entry (a : action) : bool :=
  match a with Enter Connected => true | _ => false end.

(** What the script and the client may do once the handshakes are over,
    and at any time. *)
Definition tail_action (a : action) : Prop :=
  match a with
  | Handshake _ | Backoff _ | ConnectCall _ _ _ | Called _ => False
  | Sent ev _ => ev = "subscribe" \/ ev = "unsubscribe"
  | _ => True
  end.

Definition main_action (a : action) : Prop :=
  match a with
  | Sent ev _ => ev = "subscribe" \/ ev = "unsubscribe"
  | Called f => f = "main"
  | _ => True
  end.

(** What the transport does while it retries. *)
Definition retry_action (a : action) : Prop :=
  match a with
  | Handshake _ | Backoff _ => True
  | Fired h => h = "connect_error"
  | _ => False
  end.

(** The delays the transport slept, in order. *)
Fixpoint delays (tr : list action) : list nat :=
  match tr with
  | [] => []
  | Backoff d :: rest => d :: delays rest
  | _ :: rest => delays rest
  end.

(** The number of handshakes the transport opened. *)
Definition attempts (tr : list action) : nat := length (List.filter is_handshake tr).

(** The state in which [main] enters its [try] statement. *)
Definition at_try (environ : gmap string string) (hs : list attempt)
    (evs : list inbound) : State :=
  snd ((log (Called "main");; banner environ;; warn_no_key environ) (init hs evs)).

(** How the body of the [try] ends in a run. *)
Definition session_outcome (environ : gmap string string) (w : World)
    (hs : list attempt) (evs : list inbound) : result unit * State :=
  session environ w (at_try environ hs evs).

(** Worlds used for concrete runs.  In the first the n-th clock reading is
    [T<n>] and nothing fails to send; in the second sending [unsubscribe]
    fails; the third differs from the first in its clock, which reads
    [U<n>].  Every wait is ended by the user. *)
Definition calm_world : World :=
  mkWorld (fun n => "T" +:+ pretty n) (fun _ => None) UserInterrupts.

Definition lossy_world : World :=
  mkWorld (fun n => "T" +:+ pretty n)
    (fun ev => if String.eqb ev "unsubscribe"
               then Some (BadNamespaceError "/ is not a connected namespace.")
               else None)
    UserInterrupts.

Definition late_world : World :=
  mkWorld (fun n => "U" +:+ pretty n) (fun _ => None) UserInterrupts.

(** A client in the middle of a session. *)
Definition open_session : State := mkState Connected (Some "sid1") [] [] 0 [] [].

Definition with_key : gmap string string := {["WEBSOCKET_API_KEY" := "secret"]}.

Definition six_failures : list attempt :=
  map Transient ["t0"; "t1"; "t2"; "t3"; "t4"; "t5"].

(** *** Statements that are compared with the script *)

(** A run whose connection attempt ends in [ConnectionError] exits with a
    non-zero status. *)
Definition exits_nonzero_on_connection_error (environ : gmap string string)
    (w : World) (hs : list attempt) (evs : list inbound) : Prop :=
  forall msg,
    fst (session_outcome environ w hs evs) = Raise (ConnectionError msg) ->
    exit_status (fst (run environ w hs evs)) <> 0%Z.

(** A run interrupted while connected attempts the disconnect. *)
Definition disconnects_after_interrupt (environ : gmap string string)
    (w : World) (hs : list attempt) (evs : list inbound) : Prop :=
  fst (session_outcome environ w hs evs) = Raise KeyboardInterrupt ->
  existsb is_close (trace (snd (run environ w hs evs))) = true.

(** The client object keeps the time of the last pong: it can be read back
    from what the script can read of the client. *)
Definition pong_recorded : Prop :=
  exists last_liveness : conn_state * option string -> string,
    forall w data s,
      conn s = Connected ->
      last_liveness (memory (snd (on_pong w data s))) = clock w (tick s).

(** The states in which the client is already disconnected: it is not
    connected, or a disconnect or a completed shutdown has just run. *)
Inductive already_disconnected (w : World) : State -> Prop :=
| not_connected s : connected s = false -> already_disconnected w s
| after_disconnect s : already_disconnected w (snd (sio_disconnect (handlers w) s))
| after_shutdown s :
    fst (shutdown w s) = Ok tt -> already_disconnected w (snd (shutdown w s)).

(** The line of an optional field: printed when the field is there and
    truthy. *)
Definition optional_line (label : string) (field : option value) : list string :=
  match field with
  | Some x => if truthy x then [label +:+ str x] else []
  | None => []
  end.

(** What a notification prints at time [t], with the defaults for the
    fields that are absent. *)
Definition notification_lines (t : string) (items : list (string * value)) : list string :=
  [nl +:+ "[" +:+ t +:+ "] === NOTIFICATION RECEIVED ===";
   "  Type: " +:+ str (default (VStr "unknown") (assoc "type" items))]
  ++ optional_line "  Title: " (assoc "title" items)
  ++ ["  Message: " +:+ str (default (VStr EmptyString) (assoc "message" items))]
  ++ optional_line "  Data: " (assoc "data" items)
  ++ ["  Timestamp: " +:+ str (default (VStr "N/A") (assoc "timestamp" items));
      str_mul "=" 50].

(** *** Further observations *)

(** Whether a payload is a dict. *)
Definition is_dict (v : value) : bool :=
  match v with VDict _ => true | _ => false end.

(** No action at all. *)
Definition silent (a : action) : Prop := False.

(** The two actions of the shutdown path: the unsubscribe message and the
    closing of the connection. *)
Definition is_farewell (a : action) : bool :=
  match a with
  | Closed => true
  | Sent ev _ => String.eqb ev "unsubscribe"
  | _ => false
  end.

Definition quiet_exit (a : action) : Prop := is_farewell a = false.

(** A world like [calm_world] in which the server ends every wait. *)
Definition closing_world : World :=
  mkWorld (fun n => "T" +:+ pretty n) (fun _ => None) ServerCloses.

(** An action without the API key: the [apiKey] field is taken out of the
    payload given to [sio.connect]. *)
Definition redact (a : action) : action :=
  match a with
  | ConnectCall url auth transports => ConnectCall url (delete "apiKey" auth) transports
  | _ => a
  end.

(** Two states that differ at most in the API key recorded in their
    actions. *)
Definition alike (s1 s2 : State) : Prop :=
  conn s1 = conn s2 /\ sid s1 = sid s2 /\ stdout s1 = stdout s2 /\ tick s1 = tick s2
  /\ handshakes s1 = handshakes s2 /\ inbox s1 = inbox s2
  /\ map redact (trace s1) = map redact (trace s2).

(** Two statements that cannot be told apart by their outcome, on the
    console, in the client object or in their actions without the key. *)
Definition twin {A} (m1 m2 : M A) : Prop :=
  forall s1 s2, alike s1 s2 ->
    fst (m1 s1) = fst (m2 s2) /\ alike (snd (m1 s1)) (snd (m2 s2)).

(** *** Rules for [emits] *)

Section Emits.
Context {Q : action -> Prop}.

Lemma emits_ret {A} (a : A) : emits Q (ret a).
Proof. intros s. exists []. by rewrite app_nil_r. Qed.

Lemma emits_raise {A} (e : exn) : emits Q (@raise A e).
Proof. intros s. exists []. by rewrite app_nil_r. Qed.

Lemma emits_bind {A B} (m : M A) (k : A -> M B) :
  emits Q m -> (forall a, emits Q (k a)) -> emits Q (bind m k).
Proof.
  intros Hm Hk s. unfold bind. destruct (Hm s) as (tr1 & E1 & F1).
  destruct (m s) as [[a|e] s1]; simpl in *.
  - destruct (Hk a s1) as (tr2 & E2 & F2). exists (tr1 ++ tr2). split.
    + by rewrite E2, E1, app_assoc.
    + by apply Forall_app.
  - by exists tr1.
Qed.

Lemma emits_try_except {A} (body : M A) handler :
  emits Q body -> (forall e h, handler e = Some h -> emits Q h) ->
  emits Q (try_except body handler).
Proof.
  intros Hb Hh s. unfold try_except. destruct (Hb s) as (tr1 & E1 & F1).
  destruct (body s) as [[a|e] s1]; simpl in *; [by exists tr1|].
  destruct (handler e) as [h|] eqn:Eh; [|by exists tr1].
  destruct (Hh e h Eh s1) as (tr2 & E2 & F2). exists (tr1 ++ tr2). split.
  - by rewrite E2, E1, app_assoc.
  - by apply Forall_app.
Qed.

Lemma emits_try_finally {A} (body : M A) fin :
  emits Q body -> emits Q fin -> emits Q (try_finally body fin).
Proof.
  intros Hb Hf s. unfold try_finally. destruct (Hb s) as (tr1 & E1 & F1).
  destruct (body s) as [r s1]; simpl in *.
  destruct (Hf s1) as (tr2 & E2 & F2). exists (tr1 ++ tr2). split.
  - destruct (fin s1) as [[[]|e] s2]; simpl in *; by rewrite E2, E1, app_assoc.
  - by apply Forall_app.
Qed.

Lemma emits_print line : emits Q (print line).
Proof. intros s. exists []. by rewrite app_nil_r. Qed.

Lemma emits_now w : emits Q (now w).
Proof. intros s. exists []. by rewrite app_nil_r. Qed.

Lemma emits_get_sid : emits Q get_sid.
Proof. intros s. exists []. by rewrite app_nil_r. Qed.

Lemma emits_get_connected : emits Q get_connected.
Proof. intros s. exists []. by rewrite app_nil_r. Qed.

Lemma emits_next_attempt : emits Q next_attempt.
Proof.
  intros s. exists []. unfold next_attempt.
  destruct (handshakes s); by rewrite app_nil_r.
Qed.

Lemma emits_log a : Q a -> emits Q (log a).
Proof. intros Ha s. exists [a]. split; [done | by constructor]. Qed.

Lemma emits_enter c id : Q (Enter c) -> emits Q (enter c id).
Proof. intros Ha s. exists [Enter c]. split; [done | by constructor]. Qed.

Lemma emits_sio_emit w ev d : Q (Sent ev d) -> emits Q (sio_emit w ev d).
Proof.
  intros Ha s. unfold sio_emit. destruct (connected s).
  - destruct (emit_fault w ev); simpl.
    + exists []. by rewrite app_nil_r.
    + exists [Sent ev d]. split; [done | by constructor].
  - exists []. by rewrite app_nil_r.
Qed.

Lemma emits_dict_get data key d : emits Q (dict_get data key d).
Proof. intros s. exists []. destruct data; by rewrite app_nil_r. Qed.

Lemma emits_getitem data key : emits Q (getitem data key).
Proof.
  intros s. exists []. unfold getitem.
  destruct data; try by rewrite app_nil_r.
  destruct (assoc key items); by rewrite app_nil_r.
Qed.

Lemma emits_fire handlers name d :
  Q (Fired name) -> (forall e, Q (Crashed name e)) ->
  (forall h, handlers name = Some h -> emits Q (h d)) ->
  emits Q (fire handlers name d).
Proof.
  intros Hf Hc Hh s. unfold fire.
  destruct (handlers name) as [h|] eqn:E; [|exists []; by rewrite app_nil_r].
  destruct (Hh h eq_refl (add_trace (Fired name) s)) as (tr & Et & Ft).
  destruct (h d (add_trace (Fired name) s)) as [[[]|e] s1]; simpl in *.
  - exists (Fired name :: tr). split; [by rewrite Et, <- app_assoc | by constructor].
  - exists (Fired name :: tr ++ [Crashed name e]). split.
    + by rewrite Et, <- !app_assoc.
    + constructor; [done|]. apply Forall_app. split; [done | by constructor].
Qed.

End Emits.

Lemma emits_weaken {A} (Q Q' : action -> Prop) (m : M A) :
  (forall a, Q a -> Q' a) -> emits Q m -> emits Q' m.
Proof.
  intros HQ Hm s. destruct (Hm s) as (tr & E & F). exists tr. split; [done|].
  eapply Forall_impl; eauto.
Qed.

(** *** Rules for [steady] *)

Lemma steady_ret {A} (a : A) : steady (ret a).
Proof. by intros s. Qed.

Lemma steady_raise {A} (e : exn) : steady (@raise A e).
Proof. by intros s. Qed.

Lemma steady_bind {A B} (m : M A) (k : A -> M B) :
  steady m -> (forall a, steady (k a)) -> steady (bind m k).
Proof.
  intros Hm Hk s. unfold bind. destruct (Hm s) as [M1 H1].
  destruct (m s) as [[a|e] s1]; simpl in *; [|done].
  destruct (Hk a s1) as [M2 H2]. split; congruence.
Qed.

Lemma steady_print line : steady (print line).
Proof. by intros s. Qed.

Lemma steady_now w : steady (now w).
Proof. by intros s. Qed.

Lemma steady_log a : steady (log a).
Proof. by intros s. Qed.

Lemma steady_get_sid : steady get_sid.
Proof. by intros s. Qed.

Lemma steady_sio_emit w ev d : steady (sio_emit w ev d).
Proof.
  intros s. unfold sio_emit. destruct (connected s); [|done].
  by destruct (emit_fault w ev).
Qed.

Lemma steady_dict_get data key d : steady (dict_get data key d).
Proof. intros s. by destruct data. Qed.

Lemma steady_getitem data key : steady (getitem data key).
Proof.
  intros s. unfold getitem. destruct data; try done.
  by destruct (assoc key items).
Qed.

Lemma steady_fire handlers name d :
  (forall h, handlers name = Some h -> steady (h d)) ->
  steady (fire handlers name d).
Proof.
  intros Hh s. unfold fire. destruct (handlers name) as [h|] eqn:E; [|done].
  destruct (Hh h eq_refl (add_trace (Fired name) s)) as [M1 H1].
  by destruct (h d (add_trace (Fired name) s)) as [[[]|e] s1].
Qed.

(** *** The handlers *)

Lemma emits_stamped Q w text : emits Q (stamped w text).
Proof.
  unfold stamped. apply emits_bind; [apply emits_now | intros t; apply emits_print].
Qed.

Lemma steady_stamped w text : steady (stamped w text).
Proof.
  unfold stamped. apply steady_bind; [apply steady_now | intros t; apply steady_print].
Qed.

(** Walks through a statement, leaving the calls into the client library
    and the side conditions on its actions. *)
Ltac walk :=
  repeat first
    [ match goal with
      | |- emits _ (fire _ _ _) => fail 2
      | |- emits _ (deliver _ _) => fail 2
      | |- emits _ (handshake _ _ _ _) => fail 2
      | |- emits _ (sio_wait _ _) => fail 2
      | |- emits _ (sio_disconnect _) => fail 2
      | |- emits _ (try_finally _ _) => fail 2
      | |- steady (fire _ _ _) => fail 2
      | |- steady (deliver _ _) => fail 2
      end
    | apply emits_stamped | apply steady_stamped
    | apply emits_ret | apply emits_raise | apply emits_print | apply emits_now
    | apply emits_get_sid | apply emits_get_connected | apply emits_next_attempt
    | apply emits_dict_get | apply emits_getitem
    | apply steady_ret | apply steady_raise | apply steady_print | apply steady_now
    | apply steady_get_sid | apply steady_log | apply steady_sio_emit
    | apply steady_dict_get | apply steady_getitem
    | apply emits_bind; [|intros ?] | apply steady_bind; [|intros ?]
    | apply emits_log; simpl | apply emits_enter; simpl | apply emits_sio_emit; simpl
    | match goal with
      | |- emits _ (if ?b then _ else _) => destruct b
      | |- steady (if ?b then _ else _) => destruct b
      end ].

Ltac pick_handler H :=
  unfold handlers in H;
  repeat match type of H with
         | (if ?b then _ else _) = Some _ => destruct b
         end;
  inversion H; subst; clear H.

Lemma handler_emits w name h d : handlers w name = Some h -> emits chatter (h d).
Proof.
  intros H. pick_handler H;
    unfold connect, disconnect, connect_error, on_auth_error, on_notification,
      on_pong, on_server_shutdown; walk; done.
Qed.

Lemma handler_steady w name h d : handlers w name = Some h -> steady (h d).
Proof.
  intros H. pick_handler H;
    unfold connect, disconnect, connect_error, on_auth_error, on_notification,
      on_pong, on_server_shutdown; walk; done.
Qed.

Lemma fire_emits w name d : emits chatter (fire (handlers w) name d).
Proof. apply emits_fire; simpl; eauto using handler_emits. Qed.

Lemma fire_steady w name d : steady (fire (handlers w) name d).
Proof. apply steady_fire; eauto using handler_steady. Qed.

Lemma deliver_emits w evs : emits chatter (deliver (handlers w) evs).
Proof.
  induction evs as [|ev evs IH]; simpl; [apply emits_ret|].
  apply emits_bind; [apply fire_emits | intros _; apply IH].
Qed.

Lemma deliver_steady w evs : steady (deliver (handlers w) evs).
Proof.
  induction evs as [|ev evs IH]; simpl; [apply steady_ret|].
  apply steady_bind; [apply fire_steady | intros _; apply IH].
Qed.

Lemma fire_total handlers name d : total (fire handlers name d).
Proof.
  intros s. exists tt. unfold fire. destruct (handlers name) as [h|]; [|done].
  by destruct (h d (add_trace (Fired name) s)) as [[[]|e] s1].
Qed.

Lemma deliver_total handlers evs s : fst (deliver handlers evs s) = Ok tt.
Proof.
  revert s. induction evs as [|ev evs IH]; intros s; simpl; [done|].
  unfold bind. destruct (fire_total handlers (ev_name ev) (ev_data ev) s) as [[] E].
  destruct (fire handlers (ev_name ev) (ev_data ev) s) as [r s1]; simpl in *.
  subst r. apply IH.
Qed.

(** *** The statements of [main] *)

Lemma chatter_tail a : chatter a -> tail_action a.
Proof. destruct a; simpl; auto. Qed.

Lemma tail_main a : tail_action a -> main_action a.
Proof. destruct a; simpl; auto; done. Qed.

Lemma fire_tail w name d : emits tail_action (fire (handlers w) name d).
Proof. eapply emits_weaken; [apply chatter_tail | apply fire_emits]. Qed.

Lemma sio_wait_emits w : emits tail_action (sio_wait w (handlers w)).
Proof.
  intros s. unfold sio_wait. destruct (connected s); [|exists []; by rewrite app_nil_r].
  set (s0 := mkState _ _ _ _ _ _ _).
  assert (H : emits tail_action
    (deliver (handlers w) (inbox s);;
     match wait_fate w with
     | ServerCloses => enter Disconnected None;; fire (handlers w) "disconnect" VNone
     | UserInterrupts => raise KeyboardInterrupt
     end)).
  { apply emits_bind.
    - eapply emits_weaken; [apply chatter_tail | apply deliver_emits].
    - intros _. destruct (wait_fate w); walk; [done | apply fire_tail]. }
  apply (H s0).
Qed.

Lemma sio_disconnect_emits w : emits tail_action (sio_disconnect (handlers w)).
Proof.
  intros s. unfold sio_disconnect. destruct (connected s); [|exists []; by rewrite app_nil_r].
  assert (H : emits tail_action
    (log Closed;; enter Disconnected None;; fire (handlers w) "disconnect" VNone)).
  { walk; [done | done | apply fire_tail]. }
  apply (H s).
Qed.

Lemma shutdown_emits w : emits tail_action (shutdown w).
Proof.
  unfold shutdown. walk; [by right | apply sio_disconnect_emits].
Qed.

Lemma rescue_emits w e h : rescue w e = Some h -> emits tail_action h.
Proof.
  destruct e; simpl; intros H; inversion H; subst; clear H; walk.
Qed.

Lemma handshake_eq cfg handlers b k :
  handshake cfg handlers b k =
  (log (Handshake k);;
   a <- next_attempt;
   match a with
   | Accept id => enter Connected (Some id);; fire handlers "connect" VNone
   | Reject msg =>
       enter AuthFailed None;; fire handlers "auth:error" (VDict [("message", VStr msg)])
   | Transient msg =>
       fire handlers "connect_error" (VStr msg);;
       match b with
       | O => enter Disconnected None;; raise (ConnectionError msg)
       | S b' => log (Backoff (backoff_delay cfg k));; handshake cfg handlers b' (S k)
       end
   end).
Proof. by destruct b. Qed.

Lemma handshake_emits w b k : emits main_action (handshake sio (handlers w) b k).
Proof.
  revert k. induction b as [|b IH]; intros k; rewrite handshake_eq;
    (apply emits_bind; [by apply emits_log|]; intros _;
     apply emits_bind; [apply emits_next_attempt|]; intros [id|msg|msg]);
    walk; try done;
    try (eapply emits_weaken; [|apply fire_tail]; apply tail_main).
Qed.

Lemma session_emits environ w : emits main_action (session environ w).
Proof.
  unfold session, sio_connect. walk; try done.
  - apply handshake_emits.
  - eapply emits_weaken; [apply tail_main | apply sio_wait_emits].
Qed.

Lemma main_emits environ w : emits main_action (main environ w).
Proof.
  unfold main, banner, warn_no_key. walk; try done.
  apply emits_try_finally.
  - apply emits_try_except; [apply session_emits|].
    intros e h H. eapply emits_weaken; [apply tail_main | eapply rescue_emits, H].
  - eapply emits_weaken; [apply tail_main | apply shutdown_emits].
Qed.

(** *** Equations for the statements of [main] *)

Lemma bind_eq {A B} (m : M A) (k : A -> M B) s :
  bind m k s = match m s with (Ok a, s') => k a s' | (Raise e, s') => (Raise e, s') end.
Proof. reflexivity. Qed.

Lemma log_eq a s : log a s = (Ok tt, add_trace a s).
Proof. reflexivity. Qed.

Lemma enter_eq c id s : enter c id s = (Ok tt, move c id s).
Proof. reflexivity. Qed.

Lemma print_eq line s : print line s = (Ok tt, add_out line s).
Proof. reflexivity. Qed.

Lemma now_eq w s :
  now w s =
  (Ok (clock w (tick s)),
   mkState (conn s) (sid s) (stdout s) (trace s) (S (tick s)) (handshakes s) (inbox s)).
Proof. reflexivity. Qed.

Lemma stamped_eq w text s :
  stamped w text s =
  (Ok tt, mkState (conn s) (sid s) (stdout s ++ ["[" +:+ clock w (tick s) +:+ "] " +:+ text])
            (trace s) (S (tick s)) (handshakes s) (inbox s)).
Proof. reflexivity. Qed.

Lemma state_ext s1 s2 :
  conn s1 = conn s2 -> sid s1 = sid s2 -> stdout s1 = stdout s2 ->
  trace s1 = trace s2 -> tick s1 = tick s2 -> handshakes s1 = handshakes s2 ->
  inbox s1 = inbox s2 -> s1 = s2.
Proof. destruct s1, s2; simpl; congruence. Qed.

(** One statement of a sequence, run by the equation [L]. *)
Ltac step L := rewrite bind_eq, L; cbv beta iota.

Lemma run_eq environ w hs evs :
  run environ w hs evs =
  try_finally (try_except (session environ w) (rescue w)) (shutdown w) (at_try environ hs evs).
Proof.
  unfold run, main, at_try, banner, warn_no_key, bind, log, print. simpl.
  destruct (is_empty (API_KEY environ)); reflexivity.
Qed.

Lemma at_try_conn environ hs evs :
  conn (at_try environ hs evs) = Disconnected /\ trace (at_try environ hs evs) = [Called "main"]
  /\ handshakes (at_try environ hs evs) = hs /\ inbox (at_try environ hs evs) = evs
  /\ tick (at_try environ hs evs) = 0.
Proof.
  unfold at_try, banner, warn_no_key, bind, log, print. simpl.
  destruct (is_empty (API_KEY environ)); done.
Qed.

Lemma handshake_raise cfg handlers b k s e s' :
  handshake cfg handlers b k s = (Raise e, s') ->
  exists msg, e = ConnectionError msg /\ conn s' = Disconnected.
Proof.
  revert k s. induction b as [|b IH]; intros k s; rewrite handshake_eq;
    unfold bind at 1; simpl; unfold bind at 1;
    destruct (next_attempt (add_trace (Handshake k) s)) as [[[id|msg|msg]|e0] s1] eqn:E1.
  all: try (unfold next_attempt in E1; destruct (handshakes _); discriminate).
  all: unfold bind; simpl.
  all: match goal with |- context [fire ?h ?n ?d ?s] =>
         destruct (fire_total h n d s) as [[] Ef];
         destruct (fire h n d s) as [r s2]; simpl in Ef; subst r end.
  all: try discriminate.
  - simpl. intros H. inversion H; subst. eauto.
  - simpl. apply IH.
Qed.

Lemma conn_of_memory s s' : memory s' = memory s -> conn s' = conn s /\ sid s' = sid s.
Proof. unfold memory. intros H. by inversion H. Qed.

Lemma connected_conn s : connected s = true <-> conn s = Connected.
Proof. unfold connected. destruct (conn s); split; congruence. Qed.

Lemma sio_wait_raise w s e s' :
  sio_wait w (handlers w) s = (Raise e, s') -> e = KeyboardInterrupt /\ conn s' = Connected.
Proof.
  unfold sio_wait. destruct (connected s) eqn:Ec; [|discriminate].
  apply connected_conn in Ec.
  set (s0 := mkState _ _ _ _ _ _ _). unfold bind.
  pose proof (deliver_total (handlers w) (inbox s) s0) as Ht.
  destruct (deliver_steady w (inbox s) s0) as [Hm _]. apply conn_of_memory in Hm as [Hc _].
  destruct (deliver (handlers w) (inbox s) s0) as [r s1]; simpl in *. subst r.
  destruct (wait_fate w); simpl.
  - destruct (fire_total (handlers w) "disconnect" VNone (move Disconnected None s1)) as [[] Ef].
    destruct (fire _ _ _ _) as [r s2]; simpl in Ef; subst r. discriminate.
  - unfold raise. intros H. inversion H; subst. split; [done|]. by rewrite Hc.
Qed.

Lemma session_raise environ w s e s' :
  session environ w s = (Raise e, s') ->
  (exists msg, e = ConnectionError msg /\ conn s' = Disconnected)
  \/ (e = KeyboardInterrupt /\ conn s' = Connected).
Proof.
  unfold session, sio_connect. step stamped_eq.
  rewrite bind_eq. step log_eq. step enter_eq.
  destruct (handshake _ _ _ _ _) as [[[]|e0] s1] eqn:Eh.
  - step stamped_eq. step print_eq.
    intros H. apply sio_wait_raise in H. by right.
  - intros H. inversion H; subst. left. eapply handshake_raise, Eh.
Qed.

Lemma shutdown_idle w s : connected s = false -> shutdown w s = (Ok tt, s).
Proof. intros H. unfold shutdown, bind, get_connected. simpl. by rewrite H. Qed.

Lemma run_connection_error environ w hs evs msg :
  fst (session_outcome environ w hs evs) = Raise (ConnectionError msg) ->
  run environ w hs evs =
  (Ok tt, snd (stamped w ("Failed to connect: " +:+ msg) (snd (session_outcome environ w hs evs)))).
Proof.
  rewrite run_eq. unfold session_outcome, try_finally, try_except.
  destruct (session environ w (at_try environ hs evs)) as [r s1] eqn:Es. cbn [fst snd].
  intros ->. cbn [rescue].
  destruct (session_raise _ _ _ _ _ Es) as [(m & Hm & Hc)|[? _]]; [|done].
  rewrite stamped_eq. rewrite shutdown_idle; [done|].
  unfold connected. cbn [conn]. by rewrite Hc.
Qed.

Lemma fire_disconnect w s :
  fire (handlers w) "disconnect" VNone s =
  (Ok tt, snd (stamped w "Disconnected from server" (add_trace (Fired "disconnect") s))).
Proof. reflexivity. Qed.

Lemma fire_connect_error w msg s :
  fire (handlers w) "connect_error" (VStr msg) s =
  (Ok tt, snd (stamped w ("Connection failed: " +:+ msg) (add_trace (Fired "connect_error") s))).
Proof. reflexivity. Qed.

Lemma fire_auth_error w msg s :
  fire (handlers w) "auth:error" (VDict [("message", VStr msg)]) s =
  (Ok tt, add_out "Please check your WEBSOCKET_API_KEY environment variable."
            (snd (stamped w ("Authentication failed: " +:+ msg)
                    (add_trace (Fired "auth:error") s)))).
Proof. reflexivity. Qed.

Lemma next_attempt_cons a rest s :
  handshakes s = a :: rest ->
  next_attempt s =
  (Ok a, mkState (conn s) (sid s) (stdout s) (trace s) (tick s) rest (inbox s)).
Proof. intros H. unfold next_attempt. by rewrite H. Qed.

Lemma handshake_rejected w msgs msg rest b k s :
  length msgs <= b ->
  handshakes s = map Transient msgs ++ Reject msg :: rest ->
  exists s' tr,
    handshake sio (handlers w) b k s = (Ok tt, s')
    /\ conn s' = AuthFailed /\ Forall retry_action tr
    /\ trace s' = trace s ++ tr ++ [Enter AuthFailed; Fired "auth:error"].
Proof.
  revert b k s. induction msgs as [|m msgs IH]; intros b k s Hb Hs; simpl in Hs.
  - rewrite handshake_eq. step log_eq.
    rewrite bind_eq, (next_attempt_cons (Reject msg) rest) by done. cbv beta iota.
    step enter_eq. rewrite fire_auth_error.
    eexists _, [Handshake k]. split; [done|].
    split; [done|]. split; [by repeat constructor|].
    simpl. by rewrite <- !app_assoc.
  - destruct b as [|b]; [simpl in Hb; lia|].
    rewrite handshake_eq. step log_eq.
    rewrite bind_eq, (next_attempt_cons (Transient m) (map Transient msgs ++ Reject msg :: rest)) by done.
    cbv beta iota. step fire_connect_error. step log_eq.
    edestruct (IH b (S k)) as (s' & tr & E & Hc & Hf & Ht); [simpl in Hb; lia| |].
    2:{ rewrite E. eexists s', (Handshake k :: Fired "connect_error" :: Backoff _ :: tr).
        split; [done|]. split; [done|]. split; [by repeat constructor|].
        rewrite Ht. simpl. by rewrite <- !app_assoc. }
    done.
Qed.

Lemma handshake_exhausted w msgs m rest b k s :
  length msgs = b ->
  handshakes s = map Transient (msgs ++ [m]) ++ rest ->
  exists s', handshake sio (handlers w) b k s = (Raise (ConnectionError m), s').
Proof.
  revert b k s. induction msgs as [|m0 msgs IH]; intros b k s Hb Hs; simpl in Hs, Hb; subst b.
  - rewrite handshake_eq. step log_eq.
    rewrite bind_eq, (next_attempt_cons (Transient m) rest) by done. cbv beta iota.
    step fire_connect_error. step enter_eq. by eexists.
  - rewrite handshake_eq. step log_eq.
    rewrite bind_eq, (next_attempt_cons (Transient m0) (map Transient (msgs ++ [m]) ++ rest)) by done.
    cbv beta iota. step fire_connect_error. step log_eq.
    apply IH; done.
Qed.

Lemma attempts_app tr1 tr2 : attempts (tr1 ++ tr2) = attempts tr1 + attempts tr2.
Proof. unfold attempts. by rewrite List.filter_app, length_app. Qed.

Lemma delays_app tr1 tr2 : delays (tr1 ++ tr2) = delays tr1 ++ delays tr2.
Proof.
  induction tr1 as [|a tr1 IH]; [done|]. destruct a; simpl; by rewrite ?IH.
Qed.

Lemma tail_no_handshake tr :
  Forall tail_action tr -> attempts tr = 0 /\ delays tr = [].
Proof.
  induction 1 as [|a tr Ha _ [IH1 IH2]]; [done|].
  destruct a; simpl in *; try done.
Qed.

Lemma handshake_bounded w b k s :
  exists n tr,
    n <= b
    /\ trace (snd (handshake sio (handlers w) b k s)) = trace s ++ tr
    /\ attempts tr = S n
    /\ delays tr = map (backoff_delay sio) (seq k n).
Proof.
  revert k s. induction b as [|b IH]; intros k s; rewrite handshake_eq; step log_eq;
    rewrite bind_eq;
    assert (exists a s1, next_attempt (add_trace (Handshake k) s) = (Ok a, s1)
                         /\ trace s1 = trace s ++ [Handshake k]) as (a & s1 & -> & E1)
      by (unfold next_attempt; destruct (handshakes _); eauto);
    cbv beta iota; destruct a as [id|msg|msg].
  all: try step enter_eq.
  all: try (step fire_connect_error; try step enter_eq; try step log_eq).
  1,2,4,5: match goal with
    | |- context [fire (handlers ?w0) ?n ?d (move ?c ?i ?s0)] =>
        destruct (fire_tail w0 n d (move c i s0)) as (trf & Ef & Ff);
        destruct (tail_no_handshake trf Ff) as [Af Df];
        exists 0, ([Handshake k; Enter c] ++ trf); split; [lia|];
        split; [rewrite Ef; cbn [trace move]; rewrite E1; by rewrite <- !app_assoc|];
        rewrite attempts_app, delays_app, Af, Df; split; reflexivity
    end.
  - exists 0, [Handshake k; Fired "connect_error"; Enter Disconnected].
    split; [lia|]. split; [|done]. simpl. rewrite E1. by rewrite <- !app_assoc.
  - destruct (IH (S k) (add_trace (Backoff (backoff_delay sio k))
        (snd (stamped w ("Connection failed: " +:+ msg) (add_trace (Fired "connect_error") s1)))))
      as (n & tr & Hn & Et & At & Dt).
    exists (S n), ([Handshake k; Fired "connect_error"; Backoff (backoff_delay sio k)] ++ tr).
    split; [lia|]. split.
    + rewrite Et. simpl. rewrite E1. by rewrite <- !app_assoc.
    + rewrite attempts_app, delays_app, At, Dt. done.
Qed.

Lemma try_finally_snd {A} (body : M A) fin s :
  snd (try_finally body fin s) = snd (fin (snd (body s))).
Proof.
  unfold try_finally. destruct (body s) as [r s1]. simpl.
  by destruct (fin s1) as [[[]|e] s2].
Qed.

Lemma session_trace environ w s :
  exists n trh rest,
    n <= reconnection_attempts sio
    /\ trace (snd (session environ w s)) =
       trace s ++ [ConnectCall (SOCKET_URL environ) (auth_payload environ) ["websocket"; "polling"];
                   Enter Connecting] ++ trh ++ rest
    /\ attempts trh = S n
    /\ delays trh = map (backoff_delay sio) (seq 0 n)
    /\ Forall tail_action rest.
Proof.
  unfold session, sio_connect. step stamped_eq. rewrite bind_eq. step log_eq. step enter_eq.
  match goal with |- context [handshake sio (handlers w) ?b 0 ?s0] =>
    destruct (handshake_bounded w b 0 s0) as (n & trh & Hn & Et & At & Dt);
    destruct (handshake sio (handlers w) b 0 s0) as [[[]|e] s1] end.
  - assert (H : emits tail_action
      (stamped w "Waiting for notifications (Ctrl+C to exit)...";;
       print EmptyString;; sio_wait w (handlers w))).
    { walk. apply sio_wait_emits. }
    destruct (H s1) as (rest & Er & Fr).
    exists n, trh, rest. split; [exact Hn|]. split; [|by auto].
    rewrite Er. simpl in Et. rewrite Et. simpl. by rewrite <- !app_assoc.
  - exists n, trh, []. split; [exact Hn|]. split; [|by auto].
    simpl in *. rewrite Et, app_nil_r. by rewrite <- !app_assoc.
Qed.

Lemma run_trace environ w hs evs :
  exists n trh rest,
    n <= reconnection_attempts sio
    /\ trace (snd (run environ w hs evs)) =
       [Called "main";
        ConnectCall (SOCKET_URL environ) (auth_payload environ) ["websocket"; "polling"];
        Enter Connecting] ++ trh ++ rest
    /\ attempts trh = S n
    /\ delays trh = map (backoff_delay sio) (seq 0 n)
    /\ Forall tail_action rest.
Proof.
  rewrite run_eq, try_finally_snd.
  destruct (at_try_conn environ hs evs) as (_ & Ht & _).
  destruct (session_trace environ w (at_try environ hs evs))
    as (n & trh & rest & Hn & Et & At & Dt & Fr).
  rewrite Ht in Et.
  assert (exists t1, trace (snd (try_except (session environ w) (rescue w) (at_try environ hs evs)))
                     = trace (snd (session environ w (at_try environ hs evs))) ++ t1
                     /\ Forall tail_action t1) as (t1 & E1 & F1).
  { unfold try_except.
    destruct (session environ w (at_try environ hs evs)) as [[[]|e] s1]; simpl.
    - exists []. by rewrite app_nil_r.
    - destruct (rescue w e) as [h|] eqn:Er; [|exists []; by rewrite app_nil_r].
      apply (rescue_emits _ _ _ Er s1). }
  destruct (shutdown_emits w (snd (try_except (session environ w) (rescue w) (at_try environ hs evs))))
    as (t2 & E2 & F2).
  exists n, trh, (rest ++ t1 ++ t2). split; [done|]. split.
  - rewrite E2, E1, Et. simpl. by rewrite <- !app_assoc.
  - split; [done|]. split; [done|]. by rewrite !Forall_app.
Qed.

(** *** Further facts about the client and the shutdown path *)

Lemma sio_disconnect_connected w s :
  connected s = true ->
  sio_disconnect (handlers w) s =
  (Ok tt, snd (stamped w "Disconnected from server"
                 (add_trace (Fired "disconnect") (move Disconnected None (add_trace Closed s))))).
Proof. intros H. unfold sio_disconnect. by rewrite H. Qed.

Lemma sio_disconnect_idle handlers s :
  connected s = false -> sio_disconnect handlers s = (Ok tt, s).
Proof. intros H. unfold sio_disconnect. by rewrite H. Qed.

Lemma shutdown_connected w s :
  connected s = true ->
  shutdown w s =
  match emit_fault w "unsubscribe" with
  | Some e => (Raise e, s)
  | None =>
      stamped w "Disconnected gracefully"
        (snd (sio_disconnect (handlers w) (add_trace (Sent "unsubscribe" (VStr "python-clients")) s)))
  end.
Proof.
  intros H. unfold shutdown. rewrite bind_eq. unfold get_connected. rewrite H.
  cbv beta iota. rewrite bind_eq. unfold sio_emit. rewrite H.
  destruct (emit_fault w "unsubscribe"); [done|]. cbv beta iota.
  rewrite bind_eq, sio_disconnect_connected by done. done.
Qed.

Lemma sio_wait_idle w handlers s : connected s = false -> sio_wait w handlers s = (Ok tt, s).
Proof. intros H. unfold sio_wait. by rewrite H. Qed.

Lemma retry_not_auth tr :
  Forall retry_action tr ->
  List.filter is_auth_failed tr = [] /\ List.filter is_connected_entry tr = [].
Proof.
  induction 1 as [|a tr Ha _ [IH1 IH2]]; [done|].
  destruct a; simpl in Ha; try done; subst; simpl; auto.
Qed.

Lemma close_free_chatter a : chatter a -> is_close a = false.
Proof. by destruct a. Qed.

Lemma sio_disconnect_closes w s : connected (snd (sio_disconnect (handlers w) s)) = false.
Proof.
  destruct (connected s) eqn:E.
  - by rewrite sio_disconnect_connected.
  - by rewrite sio_disconnect_idle.
Qed.

Lemma shutdown_closes w s :
  fst (shutdown w s) = Ok tt -> connected (snd (shutdown w s)) = false.
Proof.
  destruct (connected s) eqn:E.
  - rewrite shutdown_connected by done. destruct (emit_fault w "unsubscribe"); [done|].
    intros _. rewrite stamped_eq. unfold connected. cbn [snd conn].
    apply sio_disconnect_closes.
  - by rewrite shutdown_idle.
Qed.

Lemma backoff_capped_increasing k :
  backoff_delay sio k <= backoff_delay sio (S k)
  /\ backoff_delay sio k <= reconnection_delay_max sio
  /\ (backoff_delay sio k < reconnection_delay_max sio ->
      backoff_delay sio k < backoff_delay sio (S k)).
Proof.
  unfold backoff_delay. cbn [sio reconnection_delay reconnection_delay_max].
  rewrite Nat.pow_succ_r'. assert (1 <= 2 ^ k) by (apply Nat.neq_0_lt_0, Nat.pow_nonzero; lia).
  lia.
Qed.

Lemma run_attempts environ w hs evs :
  exists n,
    n <= reconnection_attempts sio
    /\ attempts (trace (snd (run environ w hs evs))) = S n
    /\ delays (trace (snd (run environ w hs evs))) = map (backoff_delay sio) (seq 0 n).
Proof.
  destruct (run_trace environ w hs evs) as (n & trh & rest & Hn & Et & At & Dt & Fr).
  destruct (tail_no_handshake rest Fr) as [Ar Dr].
  exists n. split; [done|]. rewrite Et, !attempts_app, !delays_app, At, Dt, Ar, Dr.
  split; [change (attempts [_; _; _]) with 0; lia|]. simpl. by rewrite app_nil_r.
Qed.

Lemma session_exhausted environ w msgs m rest evs :
  length msgs = reconnection_attempts sio ->
  fst (session_outcome environ w (map Transient (msgs ++ [m]) ++ rest) evs)
  = Raise (ConnectionError m).
Proof.
  intros Hlen. unfold session_outcome.
  destruct (at_try_conn environ (map Transient (msgs ++ [m]) ++ rest) evs) as (_ & _ & Hh & _).
  set (s0 := at_try _ _ _) in *.
  unfold session, sio_connect. step stamped_eq. rewrite bind_eq. step log_eq. step enter_eq.
  match goal with |- context [handshake sio (handlers w) ?b 0 ?s1] =>
    destruct (handshake_exhausted w msgs m rest b 0 s1 Hlen Hh) as (s' & E)
  end.
  by rewrite E.
Qed.

Lemma str_mul_length c n : String.length (str_mul (String c EmptyString) n) = n.
Proof. induction n as [|n IH]; simpl; [done | by f_equal]. Qed.

Lemma masked_nonempty k :
  k <> EmptyString -> masked k = str_mul "*" (len k).
Proof. intros H. unfold masked, is_empty. by destruct k. Qed.

Lemma len_zero k : len k = 0 <-> k = EmptyString.
Proof. destruct k; [done|]. split; discriminate. Qed.

Lemma banner_eq environ s :
  banner environ s
  = (Ok tt, mkState (conn s) (sid s)
              (stdout s ++
               ["RAGFlow Socket.IO Python Client"; str_mul "=" 40;
                "Server URL: " +:+ SOCKET_URL environ;
                "API Key: " +:+ masked (API_KEY environ);
                "User Email: " +:+ USER_EMAIL environ; str_mul "=" 40; EmptyString])
              (trace s) (tick s) (handshakes s) (inbox s)).
Proof.
  unfold banner. do 6 step print_eq. rewrite print_eq. f_equal.
  apply state_ext; cbn [conn sid stdout trace tick handshakes inbox add_out]; try reflexivity.
  by rewrite <- !app_assoc.
Qed.

Lemma key_only environ k :
  SOCKET_URL (<["WEBSOCKET_API_KEY" := k]> environ) = SOCKET_URL environ
  /\ USER_EMAIL (<["WEBSOCKET_API_KEY" := k]> environ) = USER_EMAIL environ
  /\ API_KEY (<["WEBSOCKET_API_KEY" := k]> environ) = k.
Proof.
  unfold SOCKET_URL, USER_EMAIL, API_KEY, getenv.
  by rewrite lookup_insert_eq, !lookup_insert_ne.
Qed.

Lemma guarded_field_eq label key items s :
  (if truthy (default VNone (assoc key items))
   then y <- getitem (VDict items) key; print (label +:+ str y)
   else ret tt) s
  = (Ok tt, mkState (conn s) (sid s) (stdout s ++ optional_line label (assoc key items))
              (trace s) (tick s) (handshakes s) (inbox s)).
Proof.
  unfold getitem, optional_line, bind, ret, print, add_out.
  destruct (assoc key items) as [x|]; cbn [default from_option id].
  - unfold id. destruct (truthy x); [reflexivity|]. rewrite app_nil_r. by destruct s.
  - cbn [truthy]. rewrite app_nil_r. by destruct s.
Qed.

Lemma field_eq key d items s :
  dict_get (VDict items) key d s = (Ok (default d (assoc key items)), s).
Proof. reflexivity. Qed.

Lemma main_action_not_ping a : main_action a -> is_ping a = false.
Proof.
  destruct a; simpl; try done.
  - by intros [-> | ->].
  - by intros ->.
Qed.

End Obs.

(** ** The claims *)

Module Properties.
Import Py Sio Script Obs.
Local Open Scope py_scope.

(** Two concrete evaluations: what [str] prints for a nested payload, and
    the console of a session in which one notification arrives before the
    user interrupts. *)
Example str_nested :
  str (VDict [("a", VList [VInt (-3); VStr "it's"; VNone; VBool true])])
  = "{'a': [-3, " +:+ String dquote "it's" +:+ String dquote ", None, True]}".
Proof. vm_compute. reflexivity. Qed.

Example session_console :
  stdout (snd (run with_key calm_world [Accept "sid1"]
                 [mkInbound "notification"
                    (VDict [("type", VStr "info"); ("message", VStr "hello");
                            ("timestamp", VStr "2024-01-01T00:00:00Z")])]))
  = ["RAGFlow Socket.IO Python Client";
     "========================================";
     "Server URL: http://localhost:3001";
     "API Key: ******";
     "User Email: python-client@example.com";
     "========================================";
     EmptyString;
     "[T0] Connecting to http://localhost:3001...";
     "[T1] Connected to server with SID: sid1";
     "[T2] Subscribed to room: python-clients";
     "[T3] Waiting for notifications (Ctrl+C to exit)...";
     EmptyString;
     nl +:+ "[T4] === NOTIFICATION RECEIVED ===";
     "  Type: info";
     "  Message: hello";
     "  Timestamp: 2024-01-01T00:00:00Z";
     "==================================================";
     nl +:+ "[T5] Interrupted by user";
     "[T6] Disconnected from server";
     "[T7] Disconnected gracefully"].
Proof. vm_compute. reflexivity. Qed.

(** C1, as stated, fails: with no server reachable the six handshakes fail,
    [connect] raises [ConnectionError], and the script still exits with
    status 0. *)
Lemma connection_error_exit_counterexample :
  ~ exits_nonzero_on_connection_error ∅ calm_world six_failures [].
Proof.
  intros H. apply (H "t5"); vm_compute; reflexivity.
Qed.

(** C1 (amended).  When the body of the [try] ends in [ConnectionError],
    [main] prints the line [Failed to connect: <error>] last and returns
    normally, so the script exits with status 0, as after a graceful
    shutdown. *)
Theorem connection_error_exits_zero environ w hs evs msg :
  fst (session_outcome environ w hs evs) = Raise (ConnectionError msg) ->
  fst (run environ w hs evs) = Ok tt
  /\ exit_status (fst (run environ w hs evs)) = 0%Z
  /\ last (stdout (snd (run environ w hs evs)))
     = Some ("[" +:+ clock w (tick (snd (session_outcome environ w hs evs)))
             +:+ "] Failed to connect: " +:+ msg).
Proof.
  intros H. rewrite (run_connection_error _ _ _ _ _ H). rewrite stamped_eq.
  cbn [fst snd stdout exit_status]. split; [done|]. split; [done|].
  by rewrite last_snoc.
Qed.

(** The amended C1 at the run of the counterexample. *)
Lemma connection_error_exits_zero_witness :
  fst (session_outcome ∅ calm_world six_failures []) = Raise (ConnectionError "t5")
  /\ fst (run ∅ calm_world six_failures []) = Ok tt
  /\ exit_status (fst (run ∅ calm_world six_failures [])) = 0%Z
  /\ last (stdout (snd (run ∅ calm_world six_failures [])))
     = Some ("[" +:+ clock calm_world (tick (snd (session_outcome ∅ calm_world six_failures [])))
             +:+ "] Failed to connect: " +:+ "t5").
Proof.
  split; [vm_compute; reflexivity|].
  apply (connection_error_exits_zero ∅ calm_world six_failures [] "t5").
  vm_compute. reflexivity.
Defined.

(** C2, as stated, fails: when sending [unsubscribe] raises, the [finally]
    block is left at once and the disconnect is never attempted. *)
Lemma interrupt_disconnect_counterexample :
  ~ disconnects_after_interrupt with_key lossy_world [Accept "sid1"] [].
Proof.
  intros H. assert (E : existsb is_close
    (trace (snd (run with_key lossy_world [Accept "sid1"] []))) = false)
    by (vm_compute; reflexivity).
  rewrite H in E; [discriminate|]. vm_compute. reflexivity.
Qed.

(** C2 (amended).  When the wait is interrupted the client is connected,
    and the [finally] block sends [unsubscribe]; if that send succeeds it
    then disconnects and the run ends normally with the client
    disconnected; if the send raises, nothing more is done: the exception
    leaves [main] and the client stays connected. *)
Theorem interrupt_shutdown environ w hs evs :
  fst (session_outcome environ w hs evs) = Raise KeyboardInterrupt ->
  let s1 := snd (session_outcome environ w hs evs) in
  let r := run environ w hs evs in
  conn s1 = Connected
  /\ match emit_fault w "unsubscribe" with
     | None =>
         fst r = Ok tt
         /\ trace (snd r) = trace s1 ++ [Sent "unsubscribe" (VStr "python-clients"); Closed;
                                        Enter Disconnected; Fired "disconnect"]
         /\ conn (snd r) = Disconnected
     | Some e =>
         fst r = Raise e /\ trace (snd r) = trace s1 /\ conn (snd r) = Connected
     end.
Proof.
  intros H s1 r. subst s1 r. rewrite run_eq. unfold session_outcome in *.
  unfold try_finally, try_except.
  destruct (session environ w (at_try environ hs evs)) as [r s1] eqn:Es.
  cbn [fst snd] in *. subst r. cbn [rescue].
  destruct (session_raise _ _ _ _ _ Es) as [(m & Hm & _)|[_ Hc]]; [done|].
  split; [done|]. step now_eq. rewrite print_eq.
  rewrite shutdown_connected by (unfold connected; cbn; by rewrite Hc).
  destruct (emit_fault w "unsubscribe") as [e|].
  - cbn. done.
  - rewrite sio_disconnect_connected by (unfold connected; cbn; by rewrite Hc).
    rewrite !stamped_eq. cbn. split; [done|]. split; [|done].
    by rewrite <- !app_assoc.
Qed.

(** The amended C2 at a run that is accepted and then interrupted. *)
Lemma interrupt_shutdown_witness :
  fst (session_outcome with_key calm_world [Accept "sid1"] []) = Raise KeyboardInterrupt
  /\ conn (snd (session_outcome with_key calm_world [Accept "sid1"] [])) = Connected
  /\ trace (snd (run with_key calm_world [Accept "sid1"] [])) =
     trace (snd (session_outcome with_key calm_world [Accept "sid1"] []))
     ++ [Sent "unsubscribe" (VStr "python-clients"); Closed; Enter Disconnected; Fired "disconnect"].
Proof.
  split; [vm_compute; reflexivity|].
  pose proof (interrupt_shutdown with_key calm_world [Accept "sid1"] []) as H.
  cbv zeta in H. change (emit_fault calm_world "unsubscribe") with (@None exn) in H.
  cbv iota in H. destruct H as (Hc & _ & Ht & _); [vm_compute; reflexivity|].
  split; [exact Hc | exact Ht].
Defined.

(** C3.  When the server rejects the credentials (after at most as many
    transient failures as the retry budget allows), the handler of
    [auth:error] is fired exactly once, it is the last thing that happens
    in the run (so no handshake and no entry into [Connected] follows),
    the client was never [Connected], and it ends in [AuthFailed]. *)
Theorem auth_rejection_reported_once environ w msgs msg rest evs :
  length msgs <= reconnection_attempts sio ->
  let r := run environ w (map Transient msgs ++ Reject msg :: rest) evs in
  fst r = Ok tt
  /\ conn (snd r) = AuthFailed
  /\ (exists pre,
        trace (snd r) = pre ++ [Enter AuthFailed; Fired "auth:error"]
        /\ List.filter is_auth_failed pre = []
        /\ List.filter is_connected_entry pre = [])
  /\ length (List.filter is_auth_failed (trace (snd r))) = 1
  /\ List.filter is_connected_entry (trace (snd r)) = [].
Proof.
  intros Hlen r. subst r. rewrite run_eq.
  destruct (at_try_conn environ (map Transient msgs ++ Reject msg :: rest) evs)
    as (_ & Ht & Hh & _).
  set (s0 := at_try _ _ _) in *.
  unfold try_finally, try_except, session, sio_connect.
  step stamped_eq. rewrite bind_eq. step log_eq. step enter_eq.
  match goal with |- context [handshake sio (handlers w) ?b 0 ?s1] =>
    destruct (handshake_rejected w msgs msg rest b 0 s1 Hlen Hh) as (s' & tr & E & Hc & Hf & Et)
  end.
  rewrite E. cbv beta iota. step stamped_eq. step print_eq.
  rewrite sio_wait_idle by (unfold connected; cbn; by rewrite Hc).
  rewrite shutdown_idle by (unfold connected; cbn; by rewrite Hc).
  cbn [fst snd trace conn add_out]. cbn [trace move add_trace] in Et. rewrite Ht in Et.
  destruct (retry_not_auth tr Hf) as [F1 F2].
  split; [done|]. split; [done|].
  assert (Hpre : trace s' =
    (Called "main" :: ConnectCall (SOCKET_URL environ) (auth_payload environ)
       ["websocket"; "polling"] :: Enter Connecting :: tr)
    ++ [Enter AuthFailed; Fired "auth:error"]).
  { rewrite Et. reflexivity. }
  split; [|split].
  - eexists. split; [exact Hpre|]. simpl. auto.
  - rewrite Hpre, List.filter_app. simpl. rewrite F1. done.
  - rewrite Hpre, List.filter_app. simpl. rewrite F2. done.
Qed.

(** C3 at a run with two transient failures before the rejection. *)
Lemma auth_rejection_reported_once_witness :
  length ["t0"; "t1"] <= reconnection_attempts sio
  /\ conn (snd (run with_key calm_world
                  (map Transient ["t0"; "t1"] ++ Reject "Invalid API key" :: [Accept "sid1"])
                  [mkInbound "pong" VNone])) = AuthFailed.
Proof.
  split; [vm_compute; lia|].
  apply (auth_rejection_reported_once with_key calm_world ["t0"; "t1"] "Invalid API key"
           [Accept "sid1"] [mkInbound "pong" VNone]).
  vm_compute. lia.
Defined.

(** C4, as stated, fails: nothing the script can read back from the client
    depends on when a pong arrived; there is no liveness timestamp. *)
Lemma pong_timestamp_counterexample : ~ pong_recorded.
Proof.
  intros [last_liveness H].
  pose proof (H calm_world VNone open_session eq_refl) as H1.
  pose proof (H late_world VNone open_session eq_refl) as H2.
  change (memory (snd (on_pong late_world VNone open_session)))
    with (memory (snd (on_pong calm_world VNone open_session))) in H2.
  rewrite H1 in H2. vm_compute in H2. discriminate.
Qed.

(** C4 (amended).  A pong only prints one line with the current time and
    the payload; the client object and the trace are unchanged.  After a
    ping, whatever arrives (a pong or not), the client object is as it was
    and nothing closes the connection. *)
Theorem pong_only_prints w data s evs :
  on_pong w data s =
    (Ok tt, mkState (conn s) (sid s)
              (stdout s ++ ["[" +:+ clock w (tick s) +:+ "] Pong received: " +:+ str data])
              (trace s) (S (tick s)) (handshakes s) (inbox s))
  /\ memory (snd ((send_ping w;; deliver (handlers w) evs) s)) = memory s
  /\ exists tr, trace (snd ((send_ping w;; deliver (handlers w) evs) s)) = trace s ++ tr
                /\ List.filter is_close tr = [].
Proof.
  split; [reflexivity|]. split.
  - assert (H : steady (send_ping w;; deliver (handlers w) evs)).
    { unfold send_ping. walk. apply deliver_steady. }
    apply H.
  - assert (H : emits (fun a => is_close a = false) (send_ping w;; deliver (handlers w) evs)).
    { unfold send_ping. walk; try done.
      eapply emits_weaken; [apply close_free_chatter | apply deliver_emits]. }
    destruct (H s) as (tr & E & F). exists tr. split; [done|].
    clear E. induction F as [|a tr Ha _ IH]; [done|].
    simpl. by rewrite Ha.
Qed.

(** C5.  In a state where the client is already disconnected (never
    connected, or just after a disconnect or a completed shutdown), both
    [sio.disconnect()] and the whole [finally] block return normally and
    leave the state exactly as it was. *)
Theorem disconnect_idempotent w s :
  already_disconnected w s ->
  sio_disconnect (handlers w) s = (Ok tt, s) /\ shutdown w s = (Ok tt, s).
Proof.
  intros H. assert (E : connected s = false).
  { destruct H as [s H|s|s H]; [done | apply sio_disconnect_closes | by apply shutdown_closes]. }
  split; [by apply sio_disconnect_idle | by apply shutdown_idle].
Qed.

(** C5 at a second disconnect after a graceful shutdown. *)
Lemma disconnect_idempotent_witness :
  already_disconnected calm_world (snd (shutdown calm_world open_session))
  /\ sio_disconnect (handlers calm_world) (snd (shutdown calm_world open_session))
     = (Ok tt, snd (shutdown calm_world open_session)).
Proof.
  split.
  - apply after_shutdown. vm_compute. reflexivity.
  - apply (disconnect_idempotent calm_world (snd (shutdown calm_world open_session))).
    apply after_shutdown. vm_compute. reflexivity.
Defined.

(** C6.  The client is configured with reconnection on, five retries, a
    first delay of 1 and a cap of 5; the delays never decrease, grow
    strictly below the cap and never exceed it; every run opens at most
    six handshakes and sleeps exactly the first delays of that schedule;
    and when the first handshake and all five retries fail, the body of
    the [try] receives [ConnectionError] with the last failure. *)
Theorem reconnection_is_bounded environ w msgs m rest evs :
  length msgs = reconnection_attempts sio ->
  (reconnection sio = true /\ reconnection_attempts sio = 5
   /\ reconnection_delay sio = 1 /\ reconnection_delay_max sio = 5)
  /\ (forall k, backoff_delay sio k <= backoff_delay sio (S k)
                /\ backoff_delay sio k <= reconnection_delay_max sio
                /\ (backoff_delay sio k < reconnection_delay_max sio ->
                    backoff_delay sio k < backoff_delay sio (S k)))
  /\ (forall hs, exists n,
        n <= reconnection_attempts sio
        /\ attempts (trace (snd (run environ w hs evs))) = S n
        /\ delays (trace (snd (run environ w hs evs))) = map (backoff_delay sio) (seq 0 n))
  /\ fst (session_outcome environ w (map Transient (msgs ++ [m]) ++ rest) evs)
     = Raise (ConnectionError m).
Proof.
  intros Hlen. split; [done|]. split; [|split].
  - intros k. apply backoff_capped_increasing.
  - intros hs. apply run_attempts.
  - by apply session_exhausted.
Qed.

(** C6 at six failures in a row. *)
Lemma reconnection_is_bounded_witness :
  length ["t0"; "t1"; "t2"; "t3"; "t4"] = reconnection_attempts sio
  /\ fst (session_outcome ∅ calm_world
            (map Transient (["t0"; "t1"; "t2"; "t3"; "t4"] ++ ["t5"]) ++ [Accept "sid1"]) [])
     = Raise (ConnectionError "t5").
Proof.
  split; [reflexivity|].
  apply (reconnection_is_bounded ∅ calm_world ["t0"; "t1"; "t2"; "t3"; "t4"] "t5" [Accept "sid1"] []).
  reflexivity.
Defined.

(** C7.  In every configuration the payload has [email], has [apiKey]
    exactly when the key is not empty, and has no other field; with
    nothing set in the environment it is the default email alone; an empty
    key only prints the three warning lines and raises nothing; and every
    run reaches [sio.connect] with that payload as its first action. *)
Theorem auth_payload_shape environ w hs evs s :
  auth_payload environ !! "email" = Some (USER_EMAIL environ)
  /\ auth_payload environ !! "apiKey"
     = (if is_empty (API_KEY environ) then None else Some (API_KEY environ))
  /\ dom (auth_payload environ) ⊆ {["email"; "apiKey"]}
  /\ auth_payload ∅ = {["email" := "python-client@example.com"]}
  /\ warn_no_key environ s
     = (Ok tt,
        if is_empty (API_KEY environ)
        then add_out EmptyString
               (add_out "Set WEBSOCKET_API_KEY environment variable to authenticate."
                  (add_out "WARNING: No API key set. Connection may be rejected if server requires authentication." s))
        else s)
  /\ exists tr,
       trace (snd (run environ w hs evs))
       = Called "main"
         :: ConnectCall (SOCKET_URL environ) (auth_payload environ) ["websocket"; "polling"]
         :: tr.
Proof.
  split; [|split; [|split; [|split; [reflexivity|split]]]].
  - unfold auth_payload. destruct (is_empty (API_KEY environ)); simpl.
    + by rewrite lookup_singleton_eq.
    + rewrite lookup_insert_ne by done. by rewrite lookup_singleton_eq.
  - unfold auth_payload. destruct (is_empty (API_KEY environ)); simpl.
    + by rewrite lookup_singleton_ne.
    + by rewrite lookup_insert_eq.
  - unfold auth_payload. destruct (is_empty (API_KEY environ)); simpl.
    + rewrite dom_singleton_L. set_solver.
    + rewrite dom_insert_L, dom_singleton_L. set_solver.
  - unfold warn_no_key. by destruct (is_empty (API_KEY environ)).
  - destruct (run_trace environ w hs evs) as (n & trh & rest & _ & Et & _).
    rewrite Et. by eexists.
Qed.

(** C8.  With a non-empty key the banner prints the title, the rule, the
    address, the key as one asterisk per character, the email, the rule
    and an empty line, and nothing of the key itself; so two keys with the
    same number of characters give the same banner and warning output;
    and with an empty or unset key the key line reads [(not set)]. *)
Theorem banner_masks_key environ k1 k2 s :
  len k1 = len k2 ->
  k1 <> EmptyString ->
  stdout (snd (banner (<["WEBSOCKET_API_KEY" := k1]> environ) s))
  = stdout s ++
    ["RAGFlow Socket.IO Python Client"; str_mul "=" 40;
     "Server URL: " +:+ SOCKET_URL environ;
     "API Key: " +:+ str_mul "*" (len k1);
     "User Email: " +:+ USER_EMAIL environ; str_mul "=" 40; EmptyString]
  /\ (banner (<["WEBSOCKET_API_KEY" := k1]> environ);;
      warn_no_key (<["WEBSOCKET_API_KEY" := k1]> environ)) s
     = (banner (<["WEBSOCKET_API_KEY" := k2]> environ);;
        warn_no_key (<["WEBSOCKET_API_KEY" := k2]> environ)) s
  /\ stdout (snd (banner (<["WEBSOCKET_API_KEY" := EmptyString]> environ) s))
     = stdout s ++
       ["RAGFlow Socket.IO Python Client"; str_mul "=" 40;
        "Server URL: " +:+ SOCKET_URL environ;
        "API Key: (not set)";
        "User Email: " +:+ USER_EMAIL environ; str_mul "=" 40; EmptyString]
  /\ stdout (snd (banner (delete "WEBSOCKET_API_KEY" environ) s))
     = stdout s ++
       ["RAGFlow Socket.IO Python Client"; str_mul "=" 40;
        "Server URL: " +:+ SOCKET_URL environ;
        "API Key: (not set)";
        "User Email: " +:+ USER_EMAIL environ; str_mul "=" 40; EmptyString].
Proof.
  intros Hlen Hk1.
  assert (Hk2 : k2 <> EmptyString).
  { intros ->. apply Hk1, len_zero. by rewrite Hlen. }
  destruct (key_only environ k1) as (U1 & E1 & K1).
  destruct (key_only environ k2) as (U2 & E2 & K2).
  destruct (key_only environ EmptyString) as (U0 & E0 & K0).
  split; [|split; [|split]].
  - rewrite banner_eq, U1, E1, K1, masked_nonempty by done. reflexivity.
  - rewrite !bind_eq, !banner_eq. cbv beta iota. unfold warn_no_key.
    rewrite U1, E1, K1, U2, E2, K2, !masked_nonempty, Hlen by done.
    unfold is_empty. destruct k1, k2; done.
  - rewrite banner_eq, U0, E0, K0. reflexivity.
  - rewrite banner_eq. unfold SOCKET_URL, USER_EMAIL, API_KEY, getenv.
    by rewrite lookup_delete_eq, !lookup_delete_ne.
Qed.

(** C8 at two six-letter keys. *)
Lemma banner_masks_key_witness :
  len "secret" = len "hunter"
  /\ "secret" <> EmptyString
  /\ stdout (snd (banner (<["WEBSOCKET_API_KEY" := "secret"]> ∅) (init [] [])))
     = stdout (init [] []) ++
       ["RAGFlow Socket.IO Python Client"; str_mul "=" 40;
        "Server URL: " +:+ SOCKET_URL ∅;
        "API Key: " +:+ str_mul "*" (len "secret");
        "User Email: " +:+ USER_EMAIL ∅; str_mul "=" 40; EmptyString].
Proof.
  split; [reflexivity|]. split; [discriminate|].
  refine (proj1 (banner_masks_key ∅ "secret" "hunter" (init [] []) _ _));
    [reflexivity | discriminate].
Defined.

(** C9.  On every dict payload [on_notification] returns normally (so no
    [KeyError]) after printing the header, the fields with their defaults,
    the optional fields when truthy, and the rule; on the empty dict the
    defaults [unknown], the empty string and [N/A] are what is printed. *)
Theorem notification_never_key_error w items s :
  on_notification w (VDict items) s
  = (Ok tt, mkState (conn s) (sid s)
              (stdout s ++ notification_lines (clock w (tick s)) items)
              (trace s) (S (tick s)) (handshakes s) (inbox s))
  /\ forall t, notification_lines t [] =
       [nl +:+ "[" +:+ t +:+ "] === NOTIFICATION RECEIVED ==="; "  Type: unknown";
        "  Message: "; "  Timestamp: N/A"; str_mul "=" 50].
Proof.
  split; [|reflexivity].
  unfold on_notification, notification_lines.
  step now_eq. step print_eq. step field_eq. step print_eq.
  step field_eq. step guarded_field_eq. step field_eq. step print_eq.
  step field_eq. step guarded_field_eq. step field_eq. step print_eq.
  rewrite print_eq. f_equal.
  apply state_ext; cbn [conn sid stdout trace tick handshakes inbox add_out]; try reflexivity.
  by rewrite <- !app_assoc.
Qed.

(** C10.  No run of the script enters [send_ping] or sends a ping. *)
Theorem send_ping_never_invoked environ w hs evs :
  List.filter is_ping (trace (snd (run environ w hs evs))) = [].
Proof.
  destruct (main_emits environ w (init hs evs)) as (tr & E & F).
  unfold run. rewrite E. cbn [init trace app]. clear E.
  induction F as [|a tr Ha _ IH]; [done|].
  simpl. by rewrite (main_action_not_ping a Ha).
Qed.

End Properties.

(** ** More of the script *)

Module More.
Import Py Sio Script Obs.
Local Open Scope py_scope.

(** *** The handlers *)

Lemma on_notification_eq w items s :
  on_notification w (VDict items) s
  = (Ok tt, mkState (conn s) (sid s)
              (stdout s ++ notification_lines (clock w (tick s)) items)
              (trace s) (S (tick s)) (handshakes s) (inbox s)).
Proof.
  unfold on_notification, notification_lines.
  step now_eq. step print_eq. step field_eq. step print_eq.
  step field_eq. step guarded_field_eq. step field_eq. step print_eq.
  step field_eq. step guarded_field_eq. step field_eq. step print_eq.
  rewrite print_eq. f_equal.
  apply state_ext; cbn [conn sid stdout trace tick handshakes inbox add_out]; try reflexivity.
  by rewrite <- !app_assoc.
Qed.

Lemma dict_get_not_dict d key dflt s :
  is_dict d = false -> exists msg, dict_get d key dflt s = (Raise (AttributeError msg), s).
Proof. destruct d; try discriminate; intros _; by eexists. Qed.

(** X1.  [on_auth_error] on a dict prints two lines, the first with the
    message of the payload or [Unknown error] when it has none; on any
    other payload it raises [AttributeError] after reading the clock and
    prints nothing. *)
Theorem auth_error_report w s :
  (forall items,
     on_auth_error w (VDict items) s
     = (Ok tt, mkState (conn s) (sid s)
                 (stdout s ++
                  ["[" +:+ clock w (tick s) +:+ "] Authentication failed: "
                     +:+ str (default (VStr "Unknown error") (assoc "message" items));
                   "Please check your WEBSOCKET_API_KEY environment variable."])
                 (trace s) (S (tick s)) (handshakes s) (inbox s)))
  /\ (forall d,
        is_dict d = false ->
        exists msg,
          on_auth_error w d s
          = (Raise (AttributeError msg),
             mkState (conn s) (sid s) (stdout s) (trace s) (S (tick s))
               (handshakes s) (inbox s))).
Proof.
  split.
  - intros items. unfold on_auth_error.
    step now_eq. step field_eq. step print_eq. rewrite print_eq.
    f_equal. apply state_ext; cbn [conn sid stdout trace tick handshakes inbox add_out];
      try reflexivity.
    by rewrite <- app_assoc.
  - intros d Hd. destruct d; try discriminate; by eexists.
Qed.

Lemma header_then_raise w d s :
  is_dict d = false ->
  exists msg,
    on_notification w d s
    = (Raise (AttributeError msg),
       mkState (conn s) (sid s)
         (stdout s ++ [nl +:+ "[" +:+ clock w (tick s) +:+ "] === NOTIFICATION RECEIVED ==="])
         (trace s) (S (tick s)) (handshakes s) (inbox s)).
Proof.
  intros H. unfold on_notification. step now_eq. step print_eq.
  destruct (dict_get_not_dict d "type" (VStr "unknown")
              (add_out (nl +:+ "[" +:+ clock w (tick s) +:+ "] === NOTIFICATION RECEIVED ===")
                 (mkState (conn s) (sid s) (stdout s) (trace s) (S (tick s))
                    (handshakes s) (inbox s))) H) as [msg E].
  exists msg. rewrite bind_eq, E. reflexivity.
Qed.

(** X2.  [on_notification] on a payload that is not a dict prints the
    header line and then raises [AttributeError]. *)
Theorem notification_not_dict w d s :
  is_dict d = false ->
  exists msg,
    on_notification w d s
    = (Raise (AttributeError msg),
       mkState (conn s) (sid s)
         (stdout s ++ [nl +:+ "[" +:+ clock w (tick s) +:+ "] === NOTIFICATION RECEIVED ==="])
         (trace s) (S (tick s)) (handshakes s) (inbox s)).
Proof. apply header_then_raise. Qed.

(** X2 at a string payload. *)
Lemma notification_not_dict_witness :
  is_dict (VStr "hello") = false
  /\ exists msg,
       on_notification calm_world (VStr "hello") open_session
       = (Raise (AttributeError msg),
          mkState (conn open_session) (sid open_session)
            (stdout open_session
             ++ [nl +:+ "[" +:+ clock calm_world (tick open_session)
                    +:+ "] === NOTIFICATION RECEIVED ==="])
            (trace open_session) (S (tick open_session))
            (handshakes open_session) (inbox open_session)).
Proof.
  split; [reflexivity|].
  apply (notification_not_dict calm_world (VStr "hello") open_session). reflexivity.
Defined.

(** X3.  A title or data field that is absent or falsy (an empty string,
    0, [None], [False], an empty list or dict) prints no line: the
    notification then prints exactly the header, type, message, timestamp
    and rule. *)
Theorem notification_plain w items s :
  truthy (default VNone (assoc "title" items)) = false ->
  truthy (default VNone (assoc "data" items)) = false ->
  stdout (snd (on_notification w (VDict items) s))
  = stdout s ++
    [nl +:+ "[" +:+ clock w (tick s) +:+ "] === NOTIFICATION RECEIVED ===";
     "  Type: " +:+ str (default (VStr "unknown") (assoc "type" items));
     "  Message: " +:+ str (default (VStr EmptyString) (assoc "message" items));
     "  Timestamp: " +:+ str (default (VStr "N/A") (assoc "timestamp" items));
     str_mul "=" 50].
Proof.
  intros Ht Hd. rewrite on_notification_eq. cbn [snd stdout]. f_equal.
  unfold notification_lines, optional_line.
  destruct (assoc "title" items) as [x|]; destruct (assoc "data" items) as [y|];
    cbn [default from_option id] in Ht, Hd; unfold id in *; rewrite ?Ht, ?Hd; reflexivity.
Qed.

(** X3 at a payload whose title is the empty string and whose data is 0. *)
Lemma notification_plain_witness :
  truthy (default VNone (assoc "title" [("title", VStr EmptyString); ("data", VInt 0)])) = false
  /\ truthy (default VNone (assoc "data" [("title", VStr EmptyString); ("data", VInt 0)])) = false
  /\ stdout (snd (on_notification calm_world
                    (VDict [("title", VStr EmptyString); ("data", VInt 0)]) open_session))
     = [nl +:+ "[T0] === NOTIFICATION RECEIVED ==="; "  Type: unknown"; "  Message: ";
        "  Timestamp: N/A"; str_mul "=" 50].
Proof.
  split; [reflexivity|]. split; [reflexivity|].
  apply (notification_plain calm_world [("title", VStr EmptyString); ("data", VInt 0)]
           open_session); reflexivity.
Defined.

Lemma connect_raise w s e :
  fst (connect w s) = Raise e ->
  connected s = false \/ emit_fault w "subscribe" = Some e.
Proof.
  unfold connect. step now_eq. rewrite bind_eq. unfold get_sid. cbv beta iota.
  step print_eq. rewrite bind_eq. unfold sio_emit.
  change (connected (add_out _ _)) with (connected s).
  destruct (connected s); [|by left].
  destruct (emit_fault w "subscribe") as [e'|]; cbn [fst].
  - intros H. right. congruence.
  - rewrite stamped_eq. discriminate.
Qed.

Ltac which_handler H :=
  unfold handlers in H;
  repeat match type of H with
         | (if String.eqb ?n ?lit then _ else _) = Some _ =>
             destruct (String.eqb_spec n lit); [subst n|]
         end;
  inversion H; subst; clear H.

Lemma handler_raise_cases w name h d s e :
  handlers w name = Some h ->
  fst (h d s) = Raise e ->
  (name = "connect" /\ (connected s = false \/ emit_fault w "subscribe" = Some e))
  \/ ((name = "auth:error" \/ name = "notification")
      /\ is_dict d = false /\ exists msg, e = AttributeError msg).
Proof.
  intros H He. which_handler H.
  - left. split; [done|]. by apply connect_raise.
  - discriminate.
  - discriminate.
  - right. split; [by left|]. destruct d; inversion He; subst; by eauto.
  - right. split; [by right|]. destruct (is_dict d) eqn:Ed.
    + destruct d; try discriminate. rewrite on_notification_eq in He. discriminate.
    + destruct (header_then_raise w d s Ed) as [msg E]. rewrite E in He.
      inversion He; subst. by eauto.
  - discriminate.
  - discriminate.
Qed.

(** X4.  The lookups of the handlers are safe: no handler other than
    [connect] ever raises [KeyError] or [TypeError], and [AttributeError]
    is raised exactly by [on_auth_error] and [on_notification] on a
    payload that is not a dict. *)
Theorem handler_lookups_safe w name h d s :
  handlers w name = Some h ->
  name <> "connect" ->
  ((exists msg, fst (h d s) = Raise (AttributeError msg))
   <-> (name = "auth:error" \/ name = "notification") /\ is_dict d = false)
  /\ (forall key, fst (h d s) <> Raise (KeyError key))
  /\ (forall msg, fst (h d s) <> Raise (TypeError msg)).
Proof.
  intros H Hn. split; [split|split].
  - intros [msg E]. destruct (handler_raise_cases w name h d s _ H E) as [[? _]|(? & ? & _)]; done.
  - intros [[-> | ->] Hd]; inversion H; subst.
    + destruct d; try discriminate; by eexists.
    + destruct (header_then_raise w d s Hd) as [msg E]. exists msg. by rewrite E.
  - intros key E. destruct (handler_raise_cases w name h d s _ H E) as [[? _]|(_ & _ & msg & ?)]; done.
  - intros msg E. destruct (handler_raise_cases w name h d s _ H E) as [[? _]|(_ & _ & msg' & ?)]; done.
Qed.

(** X4 at [on_auth_error] with a string payload. *)
Lemma handler_lookups_safe_witness :
  handlers calm_world "auth:error" = Some (on_auth_error calm_world)
  /\ "auth:error" <> "connect"
  /\ forall key, fst (on_auth_error calm_world (VStr "denied") open_session) <> Raise (KeyError key).
Proof.
  split; [reflexivity|]. split; [discriminate|].
  refine (proj1 (proj2 (handler_lookups_safe calm_world "auth:error" (on_auth_error calm_world)
                          (VStr "denied") open_session _ _))); [reflexivity | discriminate].
Defined.

Lemma emits_silent_nil {A} (m : M A) s : emits silent m -> trace (snd (m s)) = trace s.
Proof.
  intros H. destruct (H s) as (tr & E & F). destruct F as [|a tr []].
  by rewrite E, app_nil_r.
Qed.

Ltac open_handlers :=
  unfold connect, disconnect, connect_error, on_auth_error, on_notification,
    on_pong, on_server_shutdown.

(** X5.  No handler changes the client object or the answers still to come
    from the server; the only message a handler sends is the subscription
    to [python-clients], and only [connect] sends it. *)
Theorem handler_effects w name h d s :
  handlers w name = Some h ->
  memory (snd (h d s)) = memory s
  /\ handshakes (snd (h d s)) = handshakes s
  /\ (exists tr, trace (snd (h d s)) = trace s ++ tr
                 /\ Forall (fun a => a = Sent "subscribe" (VStr "python-clients")) tr)
  /\ (name <> "connect" -> trace (snd (h d s)) = trace s).
Proof.
  intros H. destruct (handler_steady w name h d H s) as [Hm Hh].
  split; [exact Hm|]. split; [exact Hh|]. split.
  - assert (E : emits (fun a => a = Sent "subscribe" (VStr "python-clients")) (h d))
      by (which_handler H; open_handlers; walk; done).
    apply E.
  - intros Hn. apply emits_silent_nil.
    which_handler H; [done|..]; open_handlers; walk.
Qed.

(** X5 at the [connect] handler. *)
Lemma handler_effects_witness :
  handlers calm_world "connect" = Some (fun _ => connect calm_world)
  /\ memory (snd (connect calm_world open_session)) = memory open_session.
Proof.
  split; [reflexivity|].
  apply (handler_effects calm_world "connect" (fun _ => connect calm_world) VNone open_session).
  reflexivity.
Defined.

Lemma sio_emit_state w ev d s :
  snd (sio_emit w ev d s)
  = match fst (sio_emit w ev d s) with
    | Ok _ => add_trace (Sent ev d) s
    | Raise _ => s
    end.
Proof.
  unfold sio_emit. destruct (connected s); [|done]. by destruct (emit_fault w ev).
Qed.

(** X6.  [connect] prints the session identifier (or [None]), then sends
    the subscription; when the send raises, the exception leaves the
    handler and the [Subscribed] line is not printed; otherwise that line
    is printed with the next clock reading. *)
Theorem connect_subscribes w s :
  connect w s =
  let s1 := mkState (conn s) (sid s)
              (stdout s ++ ["[" +:+ clock w (tick s) +:+ "] Connected to server with SID: "
                              +:+ str_opt (sid s)])
              (trace s) (S (tick s)) (handshakes s) (inbox s) in
  match fst (sio_emit w "subscribe" (VStr "python-clients") s1) with
  | Raise e => (Raise e, s1)
  | Ok _ =>
      (Ok tt, mkState (conn s) (sid s)
                (stdout s1 ++ ["[" +:+ clock w (S (tick s)) +:+ "] Subscribed to room: python-clients"])
                (trace s ++ [Sent "subscribe" (VStr "python-clients")])
                (S (S (tick s))) (handshakes s) (inbox s))
  end.
Proof.
  unfold connect. step now_eq. rewrite bind_eq. unfold get_sid. cbv beta iota.
  step print_eq. cbv zeta. unfold add_out. cbn [conn sid stdout trace tick handshakes inbox].
  set (s1 := mkState _ _ _ _ _ _ _). rewrite bind_eq.
  pose proof (sio_emit_state w "subscribe" (VStr "python-clients") s1) as Hs.
  destruct (sio_emit w "subscribe" (VStr "python-clients") s1) as [[[]|e] s2];
    cbn [fst snd] in *; subst s2; [|reflexivity].
  rewrite stamped_eq. reflexivity.
Qed.

(** *** The configuration *)

(** [len] counts characters, not bytes: an accented letter of two bytes and
    a symbol of four bytes are one character each, and a byte that starts
    no character counts for itself. *)
Example len_counts_characters :
  len "secret" = 6
  /\ len (String "195"%char (String "169"%char EmptyString)) = 1
  /\ len (String "240"%char (String "159"%char (String "152"%char (String "128"%char "!")))) = 2
  /\ len (String "255"%char "A") = 2
  /\ len (String "169"%char EmptyString) = 1.
Proof. repeat split; reflexivity. Qed.

Lemma run_constants e e' w hs evs :
  SOCKET_URL e = SOCKET_URL e' -> API_KEY e = API_KEY e' -> USER_EMAIL e = USER_EMAIL e' ->
  run e w hs evs = run e' w hs evs.
Proof.
  intros H1 H2 H3.
  unfold run, main, banner, warn_no_key, session, auth_payload. by rewrite H1, H2, H3.
Qed.


(** X8.  An API key set to the empty string gives the same run as no key
    at all, but the other two variables are not defaulted when empty: an
    empty [USER_EMAIL] is sent as the empty email and an empty
    [SOCKET_URL] is the empty address; the defaults apply only when the
    variable is unset. *)
Theorem empty_is_unset_only_for_the_key e w hs evs :
  run (<["WEBSOCKET_API_KEY" := EmptyString]> e) w hs evs
  = run (delete "WEBSOCKET_API_KEY" e) w hs evs
  /\ auth_payload (<["USER_EMAIL" := EmptyString]> e) !! "email" = Some EmptyString
  /\ auth_payload (delete "USER_EMAIL" e) !! "email" = Some "python-client@example.com"
  /\ SOCKET_URL (<["SOCKET_URL" := EmptyString]> e) = EmptyString
  /\ SOCKET_URL (delete "SOCKET_URL" e) = "http://localhost:3001".
Proof.
  split; [|split; [|split; [|split]]].
  - apply run_constants; unfold SOCKET_URL, API_KEY, USER_EMAIL, getenv.
    + by rewrite lookup_insert_ne, lookup_delete_ne.
    + by rewrite lookup_insert_eq, lookup_delete_eq.
    + by rewrite lookup_insert_ne, lookup_delete_ne.
  - unfold auth_payload, USER_EMAIL, getenv. rewrite lookup_insert_eq.
    destruct (negb _); [rewrite lookup_insert_ne by done|]; by rewrite lookup_singleton_eq.
  - unfold auth_payload, USER_EMAIL, getenv. rewrite lookup_delete_eq.
    destruct (negb _); [rewrite lookup_insert_ne by done|]; by rewrite lookup_singleton_eq.
  - unfold SOCKET_URL, getenv. by rewrite lookup_insert_eq.
  - unfold SOCKET_URL, getenv. by rewrite lookup_delete_eq.
Qed.

Lemma str_mul_star_not_unset n : str_mul "*" (S n) <> "(not set)".
Proof. simpl. discriminate. Qed.

Lemma len_cons c k : exists n, len (String c k) = S n.
Proof. eexists. reflexivity. Qed.

Lemma masked_same k1 k2 : masked k1 = masked k2 <-> len k1 = len k2.
Proof.
  assert (Hm : forall c k, masked (String c k) = str_mul "*" (len (String c k)))
    by reflexivity.
  destruct k1 as [|c1 k1], k2 as [|c2 k2]; rewrite ?Hm; try done.
  split; [|by intros ->]. intros H. apply (f_equal String.length) in H.
  by rewrite !(str_mul_length "*") in H.
Qed.

Lemma masked_unset k : masked k = "(not set)" <-> k = EmptyString.
Proof.
  split; [|by intros ->]. destruct k as [|c k]; [done|].
  change (masked (String c k)) with (str_mul "*" (len (String c k))).
  destruct (len_cons c k) as [n ->]. intros H. by apply str_mul_star_not_unset in H.
Qed.

(** X9.  The banner tells exactly the number of characters of the key: two
    keys give the same banner if and only if they have the same number of
    characters, and the key line of the banner reads [(not set)] if and
    only if the key is empty. *)
Theorem banner_reveals_length environ k1 k2 s :
  (stdout (snd (banner (<["WEBSOCKET_API_KEY" := k1]> environ) s))
   = stdout (snd (banner (<["WEBSOCKET_API_KEY" := k2]> environ) s))
   <-> len k1 = len k2)
  /\ (stdout (snd (banner (<["WEBSOCKET_API_KEY" := k1]> environ) s))
      = stdout s ++
        ["RAGFlow Socket.IO Python Client"; str_mul "=" 40;
         "Server URL: " +:+ SOCKET_URL environ;
         "API Key: (not set)";
         "User Email: " +:+ USER_EMAIL environ; str_mul "=" 40; EmptyString]
      <-> k1 = EmptyString).
Proof.
  destruct (key_only environ k1) as (U1 & E1 & K1).
  destruct (key_only environ k2) as (U2 & E2 & K2).
  rewrite !banner_eq. cbn [snd stdout]. rewrite U1, E1, K1, U2, E2, K2. split.
  - rewrite <- masked_same. split; [|by intros ->].
    intros H. apply app_inv_head in H. by inversion H.
  - rewrite <- masked_unset. split; [|by intros ->].
    intros H. apply app_inv_head in H. by inversion H.
Qed.

(** *** The console does not depend on the key *)

Lemma alike_connected s1 s2 : alike s1 s2 -> connected s1 = connected s2.
Proof. intros (Hc & _). unfold connected. by rewrite Hc. Qed.

Lemma twin_ret {A} (a : A) : twin (ret a) (ret a).
Proof. by intros s1 s2 H. Qed.

Lemma twin_raise {A} e : twin (@raise A e) (raise e).
Proof. by intros s1 s2 H. Qed.

Lemma twin_bind {A B} (m1 m2 : M A) (k1 k2 : A -> M B) :
  twin m1 m2 -> (forall a, twin (k1 a) (k2 a)) -> twin (bind m1 k1) (bind m2 k2).
Proof.
  intros Hm Hk s1 s2 H. unfold bind. destruct (Hm s1 s2 H) as [Hr Hs].
  destruct (m1 s1) as [[a1|e1] t1], (m2 s2) as [[a2|e2] t2]; simpl in *; try discriminate.
  - inversion Hr; subst. by apply Hk.
  - inversion Hr; subst. done.
Qed.

Lemma twin_try_except {A} (b1 b2 : M A) handler :
  twin b1 b2 -> (forall e h, handler e = Some h -> twin h h) ->
  twin (try_except b1 handler) (try_except b2 handler).
Proof.
  intros Hb Hh s1 s2 H. unfold try_except. destruct (Hb s1 s2 H) as [Hr Hs].
  destruct (b1 s1) as [[a1|e1] t1], (b2 s2) as [[a2|e2] t2]; simpl in *; try discriminate.
  - done.
  - inversion Hr; subst. destruct (handler e2) as [h|] eqn:E; [|done].
    by apply (Hh e2 h E).
Qed.

Lemma twin_try_finally {A} (b1 b2 : M A) fin :
  twin b1 b2 -> twin fin fin -> twin (try_finally b1 fin) (try_finally b2 fin).
Proof.
  intros Hb Hf s1 s2 H. unfold try_finally. destruct (Hb s1 s2 H) as [Hr Hs].
  destruct (b1 s1) as [r1 t1], (b2 s2) as [r2 t2]; simpl in *.
  destruct (Hf t1 t2 Hs) as [Hr' Hs'].
  destruct (fin t1) as [[[]|e1] u1], (fin t2) as [[[]|e2] u2]; simpl in *;
    try discriminate; [by split | inversion Hr'; by split].
Qed.

Lemma twin_print line : twin (print line) (print line).
Proof.
  intros s1 s2 (?&?&Ho&?&?&?&?). split; [done|]. unfold alike; simpl. rewrite Ho. auto 10.
Qed.

Lemma twin_now w : twin (now w) (now w).
Proof.
  intros s1 s2 (?&?&?&Ht&?&?&?). unfold now; simpl. rewrite Ht. split; [done|].
  unfold alike; simpl. auto 10.
Qed.

Lemma twin_stamped w text : twin (stamped w text) (stamped w text).
Proof. unfold stamped. apply twin_bind; [apply twin_now | intros t; apply twin_print]. Qed.

Lemma twin_get_sid : twin get_sid get_sid.
Proof. intros s1 s2 H. split; [|done]. destruct H as (?&Hs&?). unfold get_sid; simpl. by rewrite Hs. Qed.

Lemma twin_get_connected : twin get_connected get_connected.
Proof.
  intros s1 s2 H. split; [|done]. unfold get_connected; simpl.
  by rewrite (alike_connected s1 s2 H).
Qed.

Lemma twin_next_attempt : twin next_attempt next_attempt.
Proof.
  intros s1 s2 (Hc&Hs&Ho&Ht&Hh&Hi&Hr). unfold next_attempt. rewrite Hh.
  destruct (handshakes s2) eqn:E; (split; [done|]); unfold alike; simpl; rewrite ?E; auto 10.
Qed.

Lemma alike_add a1 a2 s1 s2 :
  redact a1 = redact a2 -> alike s1 s2 -> alike (add_trace a1 s1) (add_trace a2 s2).
Proof.
  intros Ha (?&?&?&?&?&?&Hr). unfold alike; simpl.
  rewrite !map_app, Hr. simpl. rewrite Ha. auto 10.
Qed.

Lemma twin_log a1 a2 : redact a1 = redact a2 -> twin (log a1) (log a2).
Proof. intros Ha s1 s2 H. split; [done|]. by apply alike_add. Qed.

Lemma twin_enter c id : twin (enter c id) (enter c id).
Proof.
  intros s1 s2 (?&?&?&?&?&?&Hr). split; [done|]. unfold alike; simpl.
  rewrite !map_app, Hr. auto 10.
Qed.

Lemma twin_sio_emit w ev d : twin (sio_emit w ev d) (sio_emit w ev d).
Proof.
  intros s1 s2 H. unfold sio_emit. rewrite (alike_connected s1 s2 H).
  destruct (connected s2); [|done]. destruct (emit_fault w ev); [done|].
  split; [done|]. by apply alike_add.
Qed.

Lemma twin_dict_get d key dflt : twin (dict_get d key dflt) (dict_get d key dflt).
Proof. intros s1 s2 H. by destruct d. Qed.

Lemma twin_getitem d key : twin (getitem d key) (getitem d key).
Proof. intros s1 s2 H. unfold getitem. destruct d; try done. by destruct (assoc key items). Qed.

Lemma twin_fire handlers name d :
  (forall h, handlers name = Some h -> twin (h d) (h d)) ->
  twin (fire handlers name d) (fire handlers name d).
Proof.
  intros Hh s1 s2 H. unfold fire. destruct (handlers name) as [h|] eqn:E; [|done].
  assert (Ha : alike (add_trace (Fired name) s1) (add_trace (Fired name) s2))
    by (by apply alike_add).
  destruct (Hh h eq_refl _ _ Ha) as [Hr Hs].
  destruct (h d (add_trace (Fired name) s1)) as [[[]|e1] t1],
           (h d (add_trace (Fired name) s2)) as [[[]|e2] t2]; simpl in *; try discriminate;
    [by split | inversion Hr; subst; split; [done | by apply alike_add]].
Qed.

(** Walks through two statements of the same shape. *)
Ltac pair_up :=
  repeat first
    [ match goal with
      | |- twin (fire _ _ _) _ => fail 2
      | |- twin (deliver _ _) _ => fail 2
      | |- twin (handshake _ _ _ _) _ => fail 2
      | |- twin (sio_wait _ _) _ => fail 2
      | |- twin (sio_disconnect _) _ => fail 2
      | |- twin (try_finally _ _) _ => fail 2
      end
    | apply twin_stamped | apply twin_ret | apply twin_raise | apply twin_print
    | apply twin_now | apply twin_get_sid | apply twin_get_connected
    | apply twin_next_attempt | apply twin_dict_get | apply twin_getitem
    | apply twin_log; [reflexivity] | apply twin_enter | apply twin_sio_emit
    | apply twin_bind; [|intros ?]
    | match goal with
      | |- twin (if ?b then _ else _) (if ?b then _ else _) => destruct b
      end ].

Lemma handler_twin w name h d : handlers w name = Some h -> twin (h d) (h d).
Proof.
  intros H. pick_handler H;
    unfold connect, disconnect, connect_error, on_auth_error, on_notification,
      on_pong, on_server_shutdown; pair_up.
Qed.

Lemma fire_twin w name d : twin (fire (handlers w) name d) (fire (handlers w) name d).
Proof. apply twin_fire. eauto using handler_twin. Qed.

Lemma deliver_twin w evs : twin (deliver (handlers w) evs) (deliver (handlers w) evs).
Proof.
  induction evs as [|ev evs IH]; simpl; [apply twin_ret|].
  apply twin_bind; [apply fire_twin | intros _; apply IH].
Qed.

Lemma handshake_twin w b k :
  twin (handshake sio (handlers w) b k) (handshake sio (handlers w) b k).
Proof.
  revert k. induction b as [|b IH]; intros k; rewrite handshake_eq;
    (apply twin_bind; [by apply twin_log|]; intros _;
     apply twin_bind; [apply twin_next_attempt|]; intros [id|msg|msg]);
    pair_up; try apply fire_twin.
  apply IH.
Qed.

Lemma sio_wait_twin w : twin (sio_wait w (handlers w)) (sio_wait w (handlers w)).
Proof.
  intros s1 s2 H. unfold sio_wait. rewrite (alike_connected s1 s2 H).
  destruct (connected s2); [|done].
  assert (T : twin
    (deliver (handlers w) (inbox s1);;
     match wait_fate w with
     | ServerCloses => enter Disconnected None;; fire (handlers w) "disconnect" VNone
     | UserInterrupts => raise KeyboardInterrupt
     end)
    (deliver (handlers w) (inbox s2);;
     match wait_fate w with
     | ServerCloses => enter Disconnected None;; fire (handlers w) "disconnect" VNone
     | UserInterrupts => raise KeyboardInterrupt
     end)).
  { destruct H as (_&_&_&_&_&Hi&_). rewrite Hi.
    apply twin_bind; [apply deliver_twin|]. intros _.
    destruct (wait_fate w); pair_up. apply fire_twin. }
  apply T. destruct H as (?&?&?&?&?&?&?). unfold alike; simpl. auto 10.
Qed.

Lemma sio_disconnect_twin w : twin (sio_disconnect (handlers w)) (sio_disconnect (handlers w)).
Proof.
  intros s1 s2 H. unfold sio_disconnect. rewrite (alike_connected s1 s2 H).
  destruct (connected s2); [|done].
  assert (T : twin (log Closed;; enter Disconnected None;; fire (handlers w) "disconnect" VNone)
                   (log Closed;; enter Disconnected None;; fire (handlers w) "disconnect" VNone)).
  { pair_up. apply fire_twin. }
  by apply T.
Qed.

Lemma shutdown_twin w : twin (shutdown w) (shutdown w).
Proof. unfold shutdown. pair_up. apply sio_disconnect_twin. Qed.

Lemma rescue_twin w e h : rescue w e = Some h -> twin h h.
Proof. destruct e; simpl; intros H; inversion H; subst; pair_up. Qed.

Lemma auth_redacted e :
  delete "apiKey" (auth_payload e) = {["email" := USER_EMAIL e]}.
Proof.
  unfold auth_payload. destruct (negb _); simpl.
  - rewrite delete_insert_eq. by apply delete_singleton_ne.
  - by apply delete_singleton_ne.
Qed.

Lemma main_twin e1 e2 w :
  SOCKET_URL e1 = SOCKET_URL e2 -> USER_EMAIL e1 = USER_EMAIL e2 ->
  masked (API_KEY e1) = masked (API_KEY e2) ->
  is_empty (API_KEY e1) = is_empty (API_KEY e2) ->
  twin (main e1 w) (main e2 w).
Proof.
  intros Hu He Hm Hk. unfold main, banner, warn_no_key, session, sio_connect.
  rewrite Hu, He, Hm, Hk. pair_up.
  apply twin_try_finally; [|apply shutdown_twin].
  apply twin_try_except; [|apply rescue_twin].
  apply twin_bind; [apply twin_stamped|]. intros _.
  apply twin_bind.
  - apply twin_bind; [|intros _; pair_up; apply handshake_twin].
    apply twin_log. simpl. by rewrite !auth_redacted, He.
  - intros _. pair_up. apply sio_wait_twin.
Qed.

(** X10.  The key reaches nothing but the [apiKey] field of the payload
    given to [sio.connect]: with the same server behaviour, two keys with
    the same non-zero number of characters give runs with the same
    outcome, the same console output from the first line to the last, the
    same final client object, and the same actions once that field is
    taken out. *)
Theorem key_only_in_auth_payload environ k1 k2 w hs evs :
  len k1 = len k2 ->
  k1 <> EmptyString ->
  fst (run (<["WEBSOCKET_API_KEY" := k1]> environ) w hs evs)
  = fst (run (<["WEBSOCKET_API_KEY" := k2]> environ) w hs evs)
  /\ stdout (snd (run (<["WEBSOCKET_API_KEY" := k1]> environ) w hs evs))
     = stdout (snd (run (<["WEBSOCKET_API_KEY" := k2]> environ) w hs evs))
  /\ memory (snd (run (<["WEBSOCKET_API_KEY" := k1]> environ) w hs evs))
     = memory (snd (run (<["WEBSOCKET_API_KEY" := k2]> environ) w hs evs))
  /\ map redact (trace (snd (run (<["WEBSOCKET_API_KEY" := k1]> environ) w hs evs)))
     = map redact (trace (snd (run (<["WEBSOCKET_API_KEY" := k2]> environ) w hs evs))).
Proof.
  intros Hlen Hk1.
  assert (Hk2 : k2 <> EmptyString).
  { intros ->. apply Hk1, len_zero. by rewrite Hlen. }
  destruct (key_only environ k1) as (U1 & E1 & K1).
  destruct (key_only environ k2) as (U2 & E2 & K2).
  assert (T : twin (main (<["WEBSOCKET_API_KEY" := k1]> environ) w)
                   (main (<["WEBSOCKET_API_KEY" := k2]> environ) w)).
  { apply main_twin; rewrite ?U1, ?E1, ?K1, ?U2, ?E2, ?K2; try done.
    - by rewrite !masked_nonempty, Hlen.
    - unfold is_empty. destruct k1, k2; done. }
  destruct (T (init hs evs) (init hs evs)) as (Hr & Hc & Hs & Ho & _ & _ & _ & Ht).
  { by unfold alike. }
  unfold run, memory. by rewrite Hr, Hc, Hs, Ho, Ht.
Qed.

(** X10 at two six-letter keys and an accepted session. *)
Lemma key_only_in_auth_payload_witness :
  len "secret" = len "hunter"
  /\ "secret" <> EmptyString
  /\ stdout (snd (run (<["WEBSOCKET_API_KEY" := "secret"]> ∅) calm_world [Accept "sid1"] []))
     = stdout (snd (run (<["WEBSOCKET_API_KEY" := "hunter"]> ∅) calm_world [Accept "sid1"] [])).
Proof.
  split; [reflexivity|]. split; [discriminate|].
  refine (proj1 (proj2 (key_only_in_auth_payload ∅ "secret" "hunter" calm_world
                          [Accept "sid1"] [] _ _))); [reflexivity | discriminate].
Defined.

(** *** How [main] ends *)

Lemma sio_wait_ok w s s' :
  sio_wait w (handlers w) s = (Ok tt, s') -> connected s' = false.
Proof.
  unfold sio_wait. destruct (connected s) eqn:Ec; [|intros H; inversion H; by subst].
  set (s0 := mkState _ _ _ _ _ _ _). rewrite bind_eq.
  pose proof (deliver_total (handlers w) (inbox s) s0) as Ht.
  destruct (deliver (handlers w) (inbox s) s0) as [r s1]; simpl in Ht. subst r. cbv beta iota.
  destruct (wait_fate w); [|discriminate].
  step enter_eq. rewrite fire_disconnect, stamped_eq. intros H. inversion H. reflexivity.
Qed.

Lemma session_ok w environ s s' :
  session environ w s = (Ok tt, s') -> connected s' = false.
Proof.
  unfold session, sio_connect. step stamped_eq. rewrite bind_eq. step log_eq. step enter_eq.
  destruct (handshake _ _ _ _ _) as [[[]|e0] s1]; [|discriminate].
  step stamped_eq. step print_eq. apply sio_wait_ok.
Qed.


Lemma chatter_quiet a : chatter a -> quiet_exit a.
Proof. destruct a; simpl; try done. by intros ->. Qed.

Lemma fire_quiet w name d : emits quiet_exit (fire (handlers w) name d).
Proof. eapply emits_weaken; [apply chatter_quiet | apply fire_emits]. Qed.

Lemma handshake_quiet w b k : emits quiet_exit (handshake sio (handlers w) b k).
Proof.
  revert k. induction b as [|b IH]; intros k; rewrite handshake_eq;
    (apply emits_bind; [by apply emits_log|]; intros _;
     apply emits_bind; [apply emits_next_attempt|]; intros [id|msg|msg]);
    walk; try done; try apply fire_quiet.
Qed.

Lemma sio_wait_quiet w : emits quiet_exit (sio_wait w (handlers w)).
Proof.
  intros s. unfold sio_wait. destruct (connected s); [|exists []; by rewrite app_nil_r].
  set (s0 := mkState _ _ _ _ _ _ _).
  assert (H : emits quiet_exit
    (deliver (handlers w) (inbox s);;
     match wait_fate w with
     | ServerCloses => enter Disconnected None;; fire (handlers w) "disconnect" VNone
     | UserInterrupts => raise KeyboardInterrupt
     end)).
  { apply emits_bind.
    - eapply emits_weaken; [apply chatter_quiet | apply deliver_emits].
    - intros _. destruct (wait_fate w); walk; [done | apply fire_quiet]. }
  apply (H s0).
Qed.

Lemma session_quiet environ w : emits quiet_exit (session environ w).
Proof.
  unfold session, sio_connect. walk; try done.
  - apply handshake_quiet.
  - apply sio_wait_quiet.
Qed.

Lemma quiet_filter tr : Forall quiet_exit tr -> List.filter is_farewell tr = [].
Proof.
  induction 1 as [|a tr Ha _ IH]; [done|]. simpl. by rewrite Ha.
Qed.

(** X12.  Unless the wait is interrupted, [main] returns normally, leaves
    the client not connected, and neither sends [unsubscribe] nor closes
    the connection itself: the [finally] block acts only after an
    interrupt. *)
Theorem farewell_only_after_interrupt environ w hs evs :
  fst (session_outcome environ w hs evs) <> Raise KeyboardInterrupt ->
  fst (run environ w hs evs) = Ok tt
  /\ connected (snd (run environ w hs evs)) = false
  /\ List.filter is_farewell (trace (snd (run environ w hs evs))) = [].
Proof.
  intros Hn. rewrite run_eq. unfold session_outcome in Hn. unfold try_finally, try_except.
  destruct (at_try_conn environ hs evs) as (_ & Ht & _).
  destruct (session_quiet environ w (at_try environ hs evs)) as (tr & Et & Ft).
  rewrite Ht in Et. clear Ht. revert Hn Et.
  generalize (at_try environ hs evs). intros s0 Hn Et.
  destruct (session environ w s0) as [[[]|e0] s1] eqn:Es; cbn [fst snd] in *.
  - rewrite shutdown_idle by (eapply session_ok, Es). cbn [fst snd].
    split; [done|]. split; [eapply session_ok, Es|].
    rewrite Et. simpl. by apply quiet_filter.
  - destruct (session_raise _ _ _ _ _ Es) as [(m & -> & Hc)|[-> Hc]]; [|done].
    cbn [rescue]. rewrite stamped_eq.
    rewrite shutdown_idle by (unfold connected; cbn [conn]; by rewrite Hc).
    cbn [fst snd trace]. split; [done|]. split; [unfold connected; cbn [conn]; by rewrite Hc|].
    rewrite Et. simpl. by apply quiet_filter.
Qed.

(** X12 at a session that the server ends. *)
Lemma farewell_only_after_interrupt_witness :
  fst (session_outcome with_key closing_world [Accept "sid1"] [mkInbound "pong" VNone])
  <> Raise KeyboardInterrupt
  /\ fst (run with_key closing_world [Accept "sid1"] [mkInbound "pong" VNone]) = Ok tt.
Proof.
  split; [vm_compute; discriminate|].
  apply (farewell_only_after_interrupt with_key closing_world [Accept "sid1"]
           [mkInbound "pong" VNone]).
  vm_compute. discriminate.
Defined.

End More.
